(** * Pandoc export plugin: executable resolution and invocation

    A shallow embedding of [src/main.ts] (class [PandocExportPlugin]):
    [getVaultPath], [getExportDirectory] and [exportFile].  The host
    (Node's [fs], [os], [path], [child_process] and the Obsidian vault) is
    a record of answers, [Host]; the plugin's calls into it are recorded,
    in program order, as a trace of [Event]s.

    A string is the sequence of the UTF-8 bytes of the JavaScript string;
    JavaScript white space ([\s], [trim]) is the set of ECMAScript, in its
    UTF-8 encodings of one, two and three bytes. *)

From Stdlib Require Import String Ascii List Bool Arith Lia.
Import ListNotations.
Local Open Scope string_scope.
Local Open Scope list_scope.

(** ** JavaScript string primitives used by the plugin *)

Module Js.

Definition nl : string := String (ascii_of_nat 10) EmptyString.
Definition dq : string := String (ascii_of_nat 34) EmptyString.
Definition sq : string := String (ascii_of_nat 39) EmptyString.

Definition isEmpty (s : string) : bool :=
  match s with EmptyString => true | String _ _ => false end.

(** [s.startsWith(p)] *)
Definition startsWith (p s : string) : bool := String.prefix p s.

(** [s.includes(needle)] *)
Fixpoint includes (needle s : string) : bool :=
  if String.prefix needle s then true
  else match s with
       | EmptyString => false
       | String _ s' => includes needle s'
       end.

(** [s.endsWith(suffix)] *)
Fixpoint endsWith (suffix s : string) : bool :=
  if String.eqb s suffix then true
  else match s with
       | EmptyString => false
       | String _ s' => endsWith suffix s'
       end.

(** [s.split(sep)] for a one-character separator: never the empty list,
    [''.split(':')] is [['']]. *)
Fixpoint split (sep : ascii) (s : string) : list string :=
  match s with
  | EmptyString => [EmptyString]
  | String c s' =>
      if Ascii.eqb c sep then EmptyString :: split sep s'
      else match split sep s' with
           | h :: t => String c h :: t
           | [] => [String c EmptyString]
           end
  end.

(** White space of [\s] and [trim] ([WhiteSpace] and [LineTerminator] of
    ECMAScript), by the length of its UTF-8 encoding.  One byte: TAB, LF,
    VT, FF, CR, SP. *)
Definition isSpace (c : ascii) : bool :=
  let n := nat_of_ascii c in
  (Nat.leb 9 n && Nat.leb n 13) || Nat.eqb n 32.

Definition byteIs (c : ascii) (n : nat) : bool := Nat.eqb (nat_of_ascii c) n.

(** Two bytes: U+00A0 (C2 A0). *)
Definition isSpace2 (a b : ascii) : bool := byteIs a 194 && byteIs b 160.

(** Three bytes: U+1680 (E1 9A 80); U+2000 to U+200A, U+2028, U+2029 and
    U+202F (E2 80 80-8A, A8, A9, AF); U+205F (E2 81 9F); U+3000 (E3 80 80);
    U+FEFF (EF BB BF). *)
Definition isSpace3 (a b c : ascii) : bool :=
  let k := nat_of_ascii c in
  (byteIs a 225 && byteIs b 154 && byteIs c 128)
  || (byteIs a 226 && byteIs b 128
      && ((Nat.leb 128 k && Nat.leb k 138) || Nat.eqb k 168 || Nat.eqb k 169
          || Nat.eqb k 175))
  || (byteIs a 226 && byteIs b 129 && byteIs c 159)
  || (byteIs a 227 && byteIs b 128 && byteIs c 128)
  || (byteIs a 239 && byteIs b 187 && byteIs c 191).

(** [s] starts with a white-space character. *)
Definition spaceAhead (s : string) : bool :=
  match s with
  | EmptyString => false
  | String a r1 =>
      isSpace a
      || match r1 with
         | EmptyString => false
         | String b r2 =>
             isSpace2 a b
             || match r2 with
                | EmptyString => false
                | String c _ => isSpace3 a b c
                end
         end
  end.

(** [s.trimStart()] *)
Fixpoint trimStart (s : string) : string :=
  match s with
  | EmptyString => EmptyString
  | String a r1 =>
      if isSpace a then trimStart r1
      else match r1 with
           | EmptyString => s
           | String b r2 =>
               if isSpace2 a b then trimStart r2
               else match r2 with
                    | EmptyString => s
                    | String c r3 => if isSpace3 a b c then trimStart r3 else s
                    end
           end
  end.

(** [s] is made of white space only. *)
Fixpoint allSpace (s : string) : bool :=
  match s with
  | EmptyString => true
  | String a r1 =>
      if isSpace a then allSpace r1
      else match r1 with
           | EmptyString => false
           | String b r2 =>
               if isSpace2 a b then allSpace r2
               else match r2 with
                    | EmptyString => false
                    | String c r3 => isSpace3 a b c && allSpace r3
                    end
           end
  end.

(** [s.trimEnd()]: [s] without its longest suffix of white space. *)
Fixpoint trimEnd (s : string) : string :=
  match s with
  | EmptyString => EmptyString
  | String c s' => if allSpace s then EmptyString else String c (trimEnd s')
  end.

(** [s.trim()] *)
Definition trim (s : string) : string := trimEnd (trimStart s).

Fixpoint filterChars (keep : ascii -> bool) (s : string) : string :=
  match s with
  | EmptyString => EmptyString
  | String c s' =>
      if keep c then String c (filterChars keep s') else filterChars keep s'
  end.

(** [arr.includes(x)] on an array of strings *)
Definition arrIncludes (x : string) (l : list string) : bool :=
  existsb (String.eqb x) l.

(** [[...new Set(l)]]: a [Set] keeps the first occurrence of each element,
    in insertion order. *)
Fixpoint uniqFrom (seen l : list string) : list string :=
  match l with
  | [] => []
  | x :: xs =>
      if arrIncludes x seen then uniqFrom seen xs
      else x :: uniqFrom (x :: seen) xs
  end.

Definition uniq (l : list string) : list string := uniqFrom [] l.

(** [dirs.forEach(d => { if (!arr.includes(d)) arr.push(d) })] *)
Definition pushNew (arr dirs : list string) : list string :=
  fold_left (fun acc d => if arrIncludes d acc then acc else acc ++ [d])
            dirs arr.

End Js.

(** ** The host *)

(** [os.platform()]; the plugin tests for ['win32'], ['darwin'] and
    ['linux'], any other value takes the remaining branches. *)
Inductive Platform := win32 | darwin | linux | otherPlatform.

Definition isWin32 (p : Platform) : bool :=
  match p with win32 => true | _ => false end.
Definition isDarwin (p : Platform) : bool :=
  match p with darwin => true | _ => false end.
Definition isLinux (p : Platform) : bool :=
  match p with linux => true | _ => false end.

(** The options object handed to [exec]. *)
Record ExecOptions := {
  optEnv : option (list (string * string));
  optShell : option string
}.

(** [await execPromise(cmd, options)]: resolves with [{stdout, stderr}] or
    rejects with an error, of which the plugin reads [message]. *)
Inductive ExecResult :=
| ExecOk (stdout stderr : string)
| ExecFail (message : string).

Record Host := {
  platform : Platform;                       (* os.platform() *)
  homedir : string;                          (* os.homedir() *)
  tmpdir : string;                           (* os.tmpdir() *)
  cwd : string;                              (* process.cwd() *)
  env : list (string * string);              (* process.env *)
  isAbsolute : string -> bool;               (* path.isAbsolute *)
  join : string -> string -> string;         (* path.join, two segments *)
  pathBasename : string -> string;           (* path.basename *)
  accessX : string -> bool;                  (* fs.promises.access(p, X_OK) resolves *)
  existsSync : string -> bool;               (* fs.existsSync *)
  readFileSync : string -> option string;    (* fs.readFileSync, None: throws *)
  execResult : string -> ExecOptions -> ExecResult;   (* child_process.exec *)
  vaultRead : string -> string + string;     (* app.vault.read: error or content *)
  writeFileErr : string -> option string;    (* fs.promises.writeFile: error, if any *)
  unlinkErr : string -> option string;       (* fs.promises.unlink: error, if any *)
  mkdirErr : string -> option string;        (* fs.promises.mkdir recursive: error, if any *)
  basePath : option string                   (* vault.adapter.basePath, when present *)
}.

(** What the plugin does to its host, in program order. *)
Inductive Event :=
| EvVaultRead (file : string)
| EvWriteFile (path content : string)
| EvUnlink (path : string)
| EvMkdir (path : string)
| EvAccess (path : string) (ok : bool)
| EvExists (path : string)
| EvReadFile (path : string)
| EvReaddir (path : string)
| EvExec (cmd : string) (opts : ExecOptions)
| EvWarn (stderr : string)                   (* console.log('Pandoc输出警告:', stderr) *)
| EvNotice (text : string).                  (* new Notice(text) *)

(** ** Computations: a trace and either a thrown error (its [message]) or
    a value *)

Definition M (A : Type) : Type := list Event * (string + A).

Definition ret {A} (a : A) : M A := ([], inr a).
Definition throw {A} (msg : string) : M A := ([], inl msg).
Definition emit (e : Event) : M unit := ([e], inr tt).

Definition bind {A B} (m : M A) (k : A -> M B) : M B :=
  match m with
  | (t, inl e) => (t, inl e)
  | (t, inr a) => let '(t', r) := k a in (t ++ t', r)
  end.

(** [try { m } catch (e) { handler(e) }] *)
Definition catch {A} (m : M A) (handler : string -> M A) : M A :=
  match m with
  | (t, inl e) => let '(t', r) := handler e in (t ++ t', r)
  | (t, inr a) => (t, inr a)
  end.

(** [try { m } catch (e) { }], telling whether [m] completed. *)
Definition attempt {A} (m : M A) : M (option A) :=
  match m with
  | (t, inl _) => (t, inr None)
  | (t, inr a) => (t, inr (Some a))
  end.

Definition trace {A} (m : M A) : list Event := fst m.
Definition outcome {A} (m : M A) : string + A := snd m.

Declare Scope m_scope.
Delimit Scope m_scope with M.
Notation "x <- m ;; k" := (bind m (fun x => k))
  (at level 61, m at next level, right associativity) : m_scope.
Notation "' p <- m ;; k" := (bind m (fun x => let p := x in k))
  (at level 61, p pattern, m at next level, right associativity) : m_scope.
Notation "m ;;; k" := (bind m (fun _ => k))
  (at level 61, right associativity) : m_scope.
Local Open Scope m_scope.

(** ** Settings *)

Record PandocExportSettings := {
  pandocPath : string;
  defaultExportDirectory : string;
  defaultFormat : string;
  customArguments : string;
  pdfEngine : string
}.

Definition DEFAULT_SETTINGS : PandocExportSettings := {|
  pandocPath := "pandoc";
  defaultExportDirectory := EmptyString;
  defaultFormat := "pdf";
  customArguments := EmptyString;
  pdfEngine := "auto"
|}.

(** ** Host calls *)

(** [await fs.promises.access(p, fs.constants.X_OK)] *)
Definition access (h : Host) (p : string) : M unit :=
  emit (EvAccess p (accessX h p)) ;;;
  if accessX h p then ret tt else throw "EACCES".

(** [await execPromise(cmd, options)], giving [(stdout, stderr)] *)
Definition execPromise (h : Host) (cmd : string) (opts : ExecOptions)
  : M (string * string) :=
  emit (EvExec cmd opts) ;;;
  match execResult h cmd opts with
  | ExecOk out err => ret (out, err)
  | ExecFail msg => throw msg
  end.

Definition readFile (h : Host) (p : string) : M string :=
  emit (EvReadFile p) ;;;
  match readFileSync h p with
  | Some txt => ret txt
  | None => throw "ENOENT"
  end.

Definition fileExists (h : Host) (p : string) : M bool :=
  emit (EvExists p) ;;; ret (existsSync h p).

Definition writeFile (h : Host) (p content : string) : M unit :=
  emit (EvWriteFile p content) ;;;
  match writeFileErr h p with
  | Some msg => throw msg
  | None => ret tt
  end.

Definition unlink (h : Host) (p : string) : M unit :=
  emit (EvUnlink p) ;;;
  match unlinkErr h p with
  | Some msg => throw msg
  | None => ret tt
  end.

Definition mkdir (h : Host) (p : string) : M unit :=
  emit (EvMkdir p) ;;;
  match mkdirErr h p with
  | Some msg => throw msg
  | None => ret tt
  end.

Definition readVault (h : Host) (file : string) : M string :=
  emit (EvVaultRead file) ;;;
  match vaultRead h file with
  | inl msg => throw msg
  | inr content => ret content
  end.

Definition Notice (text : string) : M unit := emit (EvNotice text).

Fixpoint lookupEnv (k : string) (e : list (string * string)) : option string :=
  match e with
  | [] => None
  | (k', v) :: rest => if String.eqb k k' then Some v else lookupEnv k rest
  end.

(** [process.env.PATH || ''] *)
Definition envPATH (h : Host) : string :=
  match lookupEnv "PATH" (env h) with
  | Some v => v
  | None => EmptyString
  end.

Definition noOptions : ExecOptions := {| optEnv := None; optShell := None |}.
Definition shellOnly (sh : string) : ExecOptions :=
  {| optEnv := None; optShell := Some sh |}.

(** ** Resolution of the pandoc executable ([exportFile], lines 147-351) *)

(** Which branch set [pandocFound = true]. *)
Inductive Provenance :=
| UserAbsolute        (* '使用用户设置的Pandoc路径' *)
| UserRelative        (* '使用相对路径找到Pandoc' *)
| PathSearch          (* '在路径中找到pandoc' *)
| FilesystemSearch    (* '使用mdfind找到pandoc' *)
| WhichCommand.       (* '使用which/where命令找到pandoc' *)

(** [access(p, X_OK).catch(() => { if (win32 && !p.endsWith('.exe'))
    return access(p + '.exe', X_OK); throw new Error(); })] *)
Definition accessOrExe (h : Host) (p : string) : M unit :=
  catch (access h p)
    (fun _ =>
       if isWin32 (platform h) && negb (Js.endsWith ".exe" p)
       then access h (p ++ ".exe")
       else throw EmptyString).

(** Lines 152-182: the configured path, when it is not the default name. *)
Definition userHint (h : Host) (pandocPath : string)
  : M (option (string * Provenance)) :=
  if negb (Js.isEmpty pandocPath) && negb (String.eqb pandocPath "pandoc") then
    catch
      (if isAbsolute h pandocPath then
         accessOrExe h pandocPath ;;;
         ret (Some (pandocPath, UserAbsolute))
       else
         let possiblePath := join h (cwd h) pandocPath in
         accessOrExe h possiblePath ;;;
         ret (Some (possiblePath, UserRelative)))
      (fun _ => ret None)
  else ret None.

(** Lines 189-191 *)
Definition pathSeparator (h : Host) : ascii :=
  if isWin32 (platform h) then ";"%char else ":"%char.

Definition pathDirs (h : Host) : list string :=
  Js.split (pathSeparator h) (envPATH h).

(** Lines 194-210, duplicates as in the source. *)
Definition commonPaths : list string :=
  [ "C:\Program Files\Pandoc";
    "C:\Pandoc";
    "/usr/local/bin";
    "/opt/homebrew/bin";
    "/opt/local/bin";
    "/opt/homebrew/bin";
    "/usr/local/Homebrew/bin";
    "/usr/bin";
    "/usr/local/bin";
    "/opt/bin" ].

Definition stripPrefix (p s : string) : option string :=
  if String.prefix p s
  then Some (String.substring (String.length p)
                              (String.length s - String.length p) s)
  else None.

Fixpoint span (keep : ascii -> bool) (s : string) : string * string :=
  match s with
  | EmptyString => (EmptyString, EmptyString)
  | String c s' =>
      if keep c then let '(a, b) := span keep s' in (String c a, b)
      else (EmptyString, s)
  end.

Definition isColon (c : ascii) : bool := Ascii.eqb c ":"%char.
Definition isQuote (c : ascii) : bool :=
  Ascii.eqb c (ascii_of_nat 34) || Ascii.eqb c (ascii_of_nat 39).

(** [/export\s+PATH=([^:]+)/] tried at the start of [s]: the text of the
    group.  [\s+] is followed by [P], [[^:]+] by [:] or the end, so the
    greedy match is the only one. *)
Definition matchExportPath (s : string) : option string :=
  match stripPrefix "export" s with
  | None => None
  | Some s1 =>
      if negb (Js.spaceAhead s1) then None
      else match stripPrefix "PATH=" (Js.trimStart s1) with
           | None => None
           | Some s3 =>
               let '(group, _) := span (fun c => negb (isColon c)) s3 in
               if Js.isEmpty group then None else Some group
           end
  end.

(** [zshrc.match(/export\s+PATH=([^:]+)/g)], each match given by its group.
    A match runs up to the next [:] (or the end) and the search resumes
    there: [skipping] is true inside a match. *)
Fixpoint exportPathGroups (skipping : bool) (s : string) : list string :=
  match s with
  | EmptyString => []
  | String c s' =>
      if skipping then exportPathGroups (negb (isColon c)) s'
      else match matchExportPath s with
           | Some group => group :: exportPathGroups true s'
           | None => exportPathGroups false s'
           end
  end.

(** Lines 224-229: [match.replace(/export\s+PATH=/, '')] leaves the group;
    then the quotes go, and the value is kept when it is not empty and
    mentions homebrew, opt or bin. *)
Definition zshrcPaths (zshrc : string) : list string :=
  filter
    (fun pathValue =>
       negb (Js.isEmpty pathValue) &&
       (Js.includes "homebrew" pathValue || Js.includes "opt" pathValue
        || Js.includes "bin" pathValue))
    (map (Js.filterChars (fun c => negb (isQuote c)))
         (exportPathGroups false zshrc)).

Definition brewM1Paths : list string :=
  [ "/opt/homebrew/bin"; "/opt/homebrew/sbin"; "/opt/homebrew/opt/pandoc/bin" ].

(** Lines 213-267: what the macOS block leaves in [commonPaths].  Only
    [readFileSync] can throw to the outer [catch], before any [push]. *)
Definition macCommonPaths (h : Host) (cp : list string) : M (list string) :=
  catch
    (let zshrcPath := join h (homedir h) ".zshrc" in
     present <- fileExists h zshrcPath ;;
     cp1 <- (if present : bool
             then zshrc <- readFile h zshrcPath ;; ret (cp ++ zshrcPaths zshrc)
             else ret cp) ;;
     r <- attempt (execPromise h "echo $PATH" (shellOnly "/bin/zsh")) ;;
     let cp2 :=
       match r with
       | Some (stdout, _) =>
           if Js.isEmpty (Js.trim stdout) then cp1
           else Js.pushNew cp1
                  (filter (fun d => negb (Js.isEmpty d))
                          (Js.split ":"%char (Js.trim stdout)))
       | None => cp1
       end in
     ret (Js.pushNew cp2 brewM1Paths))
    (fun _ => ret cp).

(** Line 277 *)
Definition exeName (h : Host) : string :=
  if isWin32 (platform h) then "pandoc.exe" else "pandoc".

(** Lines 273-288: the loop over [allPaths]. *)
Fixpoint searchDirs (h : Host) (dirs : list string) : M (option string) :=
  match dirs with
  | [] => ret None
  | dir :: rest =>
      if Js.isEmpty dir then searchDirs h rest
      else
        let exePath := join h dir (exeName h) in
        r <- attempt (access h exePath) ;;
        match r with
        | Some _ => ret (Some exePath)
        | None => searchDirs h rest
        end
  end.

(** Lines 298-308: the loop over the lines of mdfind's output. *)
Fixpoint firstExecutable (h : Host) (paths : list string) : M (option string) :=
  match paths with
  | [] => ret None
  | possPath :: rest =>
      r <- attempt (access h possPath) ;;
      match r with
      | Some _ => ret (Some possPath)
      | None => firstExecutable h rest
      end
  end.

Definition mdfindCommand : string :=
  "mdfind -name pandoc | grep -v " ++ Js.dq ++ "\.html$" ++ Js.dq
  ++ " | grep -v " ++ Js.dq ++ "\.txt$" ++ Js.dq.

(** Lines 291-313 (macOS only) *)
Definition mdfindSearch (h : Host) : M (option string) :=
  catch
    ('(stdout, _) <- execPromise h mdfindCommand (shellOnly "/bin/zsh") ;;
     if Js.isEmpty (Js.trim stdout) then ret None
     else firstExecutable h (Js.split (ascii_of_nat 10) (Js.trim stdout)))
    (fun _ => ret None).

Definition whichCommand (h : Host) : string :=
  if isWin32 (platform h) then "where pandoc" else "which pandoc".

Definition whichOptions (h : Host) : ExecOptions :=
  match platform h with
  | darwin => shellOnly "/bin/zsh"
  | linux => shellOnly "/bin/bash"
  | _ => noOptions
  end.

(** Lines 316-338: the first line of the output is taken as it is. *)
Definition whichLookup (h : Host) : M (option string) :=
  catch
    ('(stdout, _) <- execPromise h (whichCommand h) (whichOptions h) ;;
     if Js.isEmpty (Js.trim stdout) then ret None
     else ret (Some (Js.trim (hd EmptyString
                                (Js.split (ascii_of_nat 10) (Js.trim stdout))))))
    (fun _ => ret None).

(** Lines 343-350 *)
Definition notFoundMessage : string :=
  "未找到Pandoc。虽然您可能已经安装，但插件无法检测到。" ++ Js.nl ++ Js.nl ++
  "请在插件设置中输入Pandoc的完整路径(绝对路径)：" ++ Js.nl ++
  "- Windows: 通常类似 C:\Program Files\Pandoc\pandoc.exe" ++ Js.nl ++
  "- Mac: 通常类似 /usr/local/bin/pandoc 或 /opt/homebrew/bin/pandoc" ++ Js.nl ++
  "- Linux: 通常类似 /usr/bin/pandoc" ++ Js.nl ++ Js.nl ++
  "可以在终端运行 " ++ Js.dq ++ "which pandoc" ++ Js.dq ++ "(Mac/Linux) 或 "
  ++ Js.dq ++ "where pandoc" ++ Js.dq ++ "(Windows) 找到确切路径。".

(** Lines 270: [[...new Set([...pathDirs, ...commonPaths])]] *)
Definition allPaths (h : Host) (cp : list string) : list string :=
  Js.uniq (pathDirs h ++ cp).

(** Lines 290-351: the mdfind query (macOS), then the which/where lookup,
    then the error, each reached when [pandocFound] is still false. *)
Definition lastResort (h : Host) : M (string * Provenance) :=
  r3 <- (if isDarwin (platform h) then mdfindSearch h else ret None) ;;
  match r3 with
  | Some p => ret (p, FilesystemSearch)
  | None =>
      r4 <- whichLookup h ;;
      match r4 with
      | Some p => ret (p, WhichCommand)
      | None => throw notFoundMessage
      end
  end.

(** Lines 185-351: the search that runs when the configured path did not
    settle it. *)
Definition searchPandoc (h : Host) : M (string * Provenance) :=
  cp <- (if isDarwin (platform h) then macCommonPaths h commonPaths
         else ret commonPaths) ;;
  r2 <- searchDirs h (allPaths h cp) ;;
  match r2 with
  | Some p => ret (p, PathSearch)
  | None => lastResort h
  end.

(** Lines 147-351: the value of [pandocPath] (and the branch that found
    it) when [pandocFound], the thrown error otherwise. *)
Definition resolvePandoc (h : Host) (settings : PandocExportSettings)
  : M (string * Provenance) :=
  r1 <- userHint h (pandocPath settings) ;;
  match r1 with
  | Some found => ret found
  | None => searchPandoc h
  end.

(** ** Invocation ([exportFile], lines 353-395) *)

(** Lines 354-358: the final value of [extraArgs]. *)
Definition extraArgs (settings : PandocExportSettings) (format : string)
  : string :=
  if String.eqb format "pdf" && negb (String.eqb (pdfEngine settings) "auto")
  then "--pdf-engine=" ++ pdfEngine settings ++ " " ++ customArguments settings
  else customArguments settings.

(** Lines 361-369: the final value of [command]. *)
Definition command (h : Host) (pandocPath tempFilePath outputPath args : string)
  : string :=
  if isWin32 (platform h) then
    Js.dq ++ pandocPath ++ Js.dq ++ " " ++ Js.dq ++ tempFilePath ++ Js.dq
    ++ " -o " ++ Js.dq ++ outputPath ++ Js.dq ++ " " ++ args
  else
    "/bin/bash -c " ++ Js.dq ++ pandocPath ++ " " ++ Js.sq ++ tempFilePath
    ++ Js.sq ++ " -o " ++ Js.sq ++ outputPath ++ Js.sq ++ " " ++ args ++ Js.dq.

(** Lines 374-383: [{ env: { ...process.env } }], with [shell] set to
    ['/bin/bash'] off Windows. *)
Definition execOptions (h : Host) : ExecOptions :=
  {| optEnv := Some (env h);
     optShell := if isWin32 (platform h) then None else Some "/bin/bash" |}.

(** ** Failure report ([exportFile], lines 396-462) *)

Inductive Outcome := Success | ToolNotFound | EngineMissing | OtherFailure.

(** Lines 402-403 *)
Definition toolAbsent (errorMsg : string) : bool :=
  Js.includes "command not found" errorMsg
  || Js.includes "not recognized" errorMsg
  || Js.includes "未找到Pandoc" errorMsg.

(** Lines 410-411 *)
Definition engineAbsent (errorMsg : string) : bool :=
  Js.includes "pdflatex not found" errorMsg
  || Js.includes "xelatex" errorMsg
  || Js.includes "wkhtmltopdf" errorMsg
  || Js.includes "weasyprint" errorMsg.

(** Lines 404-409 *)
Definition toolNotFoundText : string :=
  "Pandoc命令未找到。" ++ Js.nl ++ Js.nl ++
  "请在插件设置中输入Pandoc的完整绝对路径：" ++ Js.nl ++
  "- Windows: 通常类似 C:\Program Files\Pandoc\pandoc.exe" ++ Js.nl ++
  "- Mac: 通常类似 /usr/local/bin/pandoc 或 /opt/homebrew/bin/pandoc" ++ Js.nl ++
  "- Linux: 通常类似 /usr/bin/pandoc" ++ Js.nl ++ Js.nl ++
  "可以在终端运行 " ++ Js.dq ++ "which pandoc" ++ Js.dq ++ "(Mac/Linux) 或 "
  ++ Js.dq ++ "where pandoc" ++ Js.dq ++ "(Windows) 查找路径。" ++ Js.nl ++
  "注意：即使Pandoc在环境变量中，Obsidian也可能无法识别，需要设置完整路径。".

(** Lines 413-422 *)
Definition engineMissingText (errorMsg : string) : string :=
  "生成PDF需要对应的引擎。错误: " ++ errorMsg ++ Js.nl ++ Js.nl ++
  "您可以:" ++ Js.nl ++
  "1. 安装LaTeX环境:" ++ Js.nl ++
  "  - Mac: brew install --cask mactex-no-gui" ++ Js.nl ++
  "  - Windows: 安装MiKTeX (https://miktex.org/)" ++ Js.nl ++
  "  - Linux: 安装texlive-full 包" ++ Js.nl ++ Js.nl ++
  "2. 或在设置中选择HTML-PDF引擎 (如wkhtmltopdf)，然后安装:" ++ Js.nl ++
  "  - Mac: brew install wkhtmltopdf" ++ Js.nl ++
  "  - Windows: 从 https://wkhtmltopdf.org/downloads.html 下载" ++ Js.nl ++
  "  - Linux: sudo apt install wkhtmltopdf".

(** Lines 400-423: the branch taken and the final value of [errorMsg],
    from [error.message]. *)
Definition classify (message : string) : Outcome * string :=
  let errorMsg := if Js.isEmpty message then "未知错误" else message in
  if toolAbsent errorMsg then (ToolNotFound, toolNotFoundText)
  else if engineAbsent errorMsg then (EngineMissing, engineMissingText errorMsg)
  else (OtherFailure, errorMsg).

(** Lines 434-454: the directory listings written to the console; each
    is inside its own [try]. *)
Definition diagnostics (h : Host) : M unit :=
  if isWin32 (platform h) then
    present <- fileExists h "C:\Program Files" ;;
    if present : bool then emit (EvReaddir "C:\Program Files") else ret tt
  else
    emit (EvReaddir "/usr/local/bin") ;;; emit (EvReaddir "/usr/bin").

Definition failureNotice (errorMsg : string) : string :=
  "导出失败: " ++ errorMsg ++ Js.nl ++ Js.nl ++
  "查看开发者控制台(Ctrl+Shift+I)获取详细信息。".

Definition successNotice (h : Host) (outputPath : string) : string :=
  "成功导出到 " ++ pathBasename h outputPath.

(** ** [exportFile] *)

Record TFile := {
  basename : string;
  path : string
}.

Definition tempFilePath (h : Host) (file : TFile) : string :=
  join h (tmpdir h) (basename file ++ "-temp.md").

(** Lines 135-395: the body of the [try]. *)
Definition exportBody (h : Host) (settings : PandocExportSettings)
    (file : TFile) (format outputPath : string) : M unit :=
  content <- readVault h (path file) ;;
  writeFile h (tempFilePath h file) content ;;;
  '(pandocPath, _) <- resolvePandoc h settings ;;
  '(_, stderr) <- execPromise h
      (command h pandocPath (tempFilePath h file) outputPath
               (extraArgs settings format))
      (execOptions h) ;;
  (if Js.isEmpty stderr then ret tt else emit (EvWarn stderr)) ;;;
  unlink h (tempFilePath h file) ;;;
  Notice (successNotice h outputPath).

(** [exportFile(file, format, outputPath)]; the value is the branch that
    produced the notice. *)
Definition exportFile (h : Host) (settings : PandocExportSettings)
    (file : TFile) (format outputPath : string) : M Outcome :=
  catch
    (exportBody h settings file format outputPath ;;; ret Success)
    (fun message =>
       let '(kind, errorMsg) := classify message in
       diagnostics h ;;;
       Notice (failureNotice errorMsg) ;;;
       ret kind).

(** ** [getVaultPath] and [getExportDirectory] (lines 93-129) *)

Definition getVaultPath (h : Host) : string :=
  match basePath h with
  | Some p => p
  | None => EmptyString
  end.

Definition directoryNotice : string :=
  "创建导出目录失败。请查看控制台获取详细信息。".

Definition getExportDirectory (h : Host) (settings : PandocExportSettings)
  : M string :=
  let vaultPath := getVaultPath h in
  let exportPath := defaultExportDirectory settings in
  if Js.isEmpty exportPath then ret vaultPath
  else
    let exportPath :=
      if isAbsolute h exportPath then exportPath
      else join h vaultPath exportPath in
    catch
      (mkdir h exportPath ;;; ret exportPath)
      (fun _ => Notice directoryNotice ;;; ret vaultPath).

(** * Vocabulary of the properties *)


(** A check of executability. *)
Definition isAccess (e : Event) : bool :=
  match e with EvAccess _ _ => true | _ => false end.

(** The X_OK check of exactly [p] was made in [t] and passed. *)
Definition checked (p : string) (t : list Event) : Prop := In (EvAccess p true) t.

(** The check of a configured path [p]: passed for [p] itself, passed on
    Windows for [p] with [.exe] appended, or failed. *)
Definition hintPasses (h : Host) (p : string) : bool :=
  accessX h p
  || (isWin32 (platform h) && negb (Js.endsWith ".exe" p)
      && accessX h (p ++ ".exe")).

(** The value of [pandocPath] that the first stage checks. *)
Definition hintCandidate (h : Host) (pandocPath : string) : string :=
  if isAbsolute h pandocPath then pandocPath
  else join h (cwd h) pandocPath.

(** The branch of the first stage that takes it. *)
Definition hintProvenance (h : Host) (pandocPath : string) : Provenance :=
  if isAbsolute h pandocPath then UserAbsolute else UserRelative.

(** Line 152: the configured path is neither empty nor the default name. *)
Definition hintConsidered (pandocPath : string) : bool :=
  negb (Js.isEmpty pandocPath) && negb (String.eqb pandocPath "pandoc").

(** [dir] is tried by the loop and holds an executable pandoc. *)
Definition holdsPandoc (h : Host) (dir : string) : bool :=
  negb (Js.isEmpty dir) && accessX h (join h dir (exeName h)).

(** Line 278: [path.join(dir, exeName)]. *)
Definition exeIn (h : Host) (dir : string) : string := join h dir (exeName h).

(** The lines of mdfind's output, when the query ran and printed some. *)
Definition mdfindLines (h : Host) : list string :=
  match execResult h mdfindCommand (shellOnly "/bin/zsh") with
  | ExecOk stdout _ =>
      if Js.isEmpty (Js.trim stdout) then []
      else Js.split (ascii_of_nat 10) (Js.trim stdout)
  | ExecFail _ => []
  end.

(** The first line of the lookup's output, when it ran and printed some. *)
Definition whichAnswer (h : Host) : option string :=
  match execResult h (whichCommand h) (whichOptions h) with
  | ExecOk stdout _ =>
      if Js.isEmpty (Js.trim stdout) then None
      else Some (Js.trim (hd EmptyString
                             (Js.split (ascii_of_nat 10) (Js.trim stdout))))
  | ExecFail _ => None
  end.


(** The events of the macOS block. *)
Definition macEvent (e : Event) : bool :=
  match e with
  | EvExists _ | EvReadFile _ => true
  | EvExec cmd _ => String.eqb cmd "echo $PATH"
  | _ => false
  end.

(** Read-only probes and diagnostic commands. *)
Definition isProbe (e : Event) : bool :=
  match e with
  | EvAccess _ _ | EvExists _ | EvReadFile _ | EvExec _ _ => true
  | _ => false
  end.

(** The first stage found nothing: the configured path is empty or the
    default name, or its check failed. *)
Definition hintFails (h : Host) (settings : PandocExportSettings) : bool :=
  negb (hintConsidered (pandocPath settings)
        && hintPasses h (hintCandidate h (pandocPath settings))).

(** Every returned path passed the check, as a property of one call. *)
Definition returnsOnlyChecked (h : Host) (settings : PandocExportSettings)
  : Prop :=
  forall p prov,
    outcome (resolvePandoc h settings) = inr (p, prov) ->
    checked p (trace (resolvePandoc h settings)).

(** An absolute configured path that fails the check makes the call
    fail, as a property of one call. *)
Definition failsOnUnexecutableHint (h : Host) (settings : PandocExportSettings)
  : Prop :=
  isAbsolute h (pandocPath settings) = true ->
  accessX h (pandocPath settings) = false ->
  exists msg, outcome (resolvePandoc h settings) = inl msg.

(** The error names the configured path, as a property of one call. *)
Definition errorNamesHint (h : Host) (settings : PandocExportSettings) : Prop :=
  forall msg,
    outcome (resolvePandoc h settings) = inl msg ->
    Js.includes (pandocPath settings) msg = true.

(** Lines 388-390: the warning logged for a non-empty standard error. *)
Definition warning (stderr : string) : list Event :=
  if Js.isEmpty stderr then [] else [EvWarn stderr].

(** The events of [diagnostics]. *)
Definition diagnosticsTrace (h : Host) : list Event :=
  if isWin32 (platform h) then
    EvExists "C:\Program Files"
      :: (if existsSync h "C:\Program Files"
          then [EvReaddir "C:\Program Files"] else [])
  else [EvReaddir "/usr/local/bin"; EvReaddir "/usr/bin"].

(** The result of running pandoc, when [exportFile] gets that far: the
    note was read, the transient file written and pandoc resolved. *)
Definition invocation (h : Host) (settings : PandocExportSettings)
    (file : TFile) (format outputPath : string) : option ExecResult :=
  match vaultRead h (path file),
        writeFileErr h (tempFilePath h file),
        outcome (resolvePandoc h settings) with
  | inr _, None, inr (p, _) =>
      Some (execResult h
              (command h p (tempFilePath h file) outputPath
                       (extraArgs settings format))
              (execOptions h))
  | _, _, _ => None
  end.

(** Events that leave the transient file and the user alone. *)
Definition preparatory (e : Event) : bool :=
  match e with
  | EvUnlink _ | EvWarn _ | EvNotice _ => false
  | _ => true
  end.

(** * Sample hosts *)

Definition sampleIsAbsolute (pl : Platform) (s : string) : bool :=
  if isWin32 pl then Js.startsWith "C:\" s else Js.startsWith "/" s.

(** [path.join] on the segments that the sample hosts meet: a directory
    with no [.] or [..] segment and no doubled separator, and a file name;
    a separator that ends the directory is not doubled. *)
Definition sampleJoin (pl : Platform) (a b : string) : string :=
  let sep := if isWin32 pl then "\" else "/" in
  if Js.endsWith sep a then a ++ b else a ++ sep ++ b.

Definition sampleBasename (pl : Platform) (p : string) : string :=
  last (Js.split (if isWin32 pl then "\"%char else "/"%char) p) EmptyString.

(** A host of family [pl] with search path [PATH], where exactly the paths
    accepted by [executable] pass the check, commands answer as [run] says
    and the file system takes every write. *)
Definition sampleHost (pl : Platform) (PATH : string)
    (executable : string -> bool)
    (run : string -> ExecOptions -> ExecResult) : Host := {|
  platform := pl;
  homedir := if isWin32 pl then "C:\Users\u" else "/home/u";
  tmpdir := if isWin32 pl then "C:\Temp" else "/tmp";
  cwd := if isWin32 pl then "C:\Users\u" else "/home/u";
  env := [("LANG", "C"); ("PATH", PATH)];
  isAbsolute := sampleIsAbsolute pl;
  join := sampleJoin pl;
  pathBasename := sampleBasename pl;
  accessX := executable;
  existsSync := fun _ => false;
  readFileSync := fun _ => None;
  execResult := run;
  vaultRead := fun _ => inr "# hello";
  writeFileErr := fun _ => None;
  unlinkErr := fun _ => None;
  mkdirErr := fun _ => None;
  basePath := Some (if isWin32 pl then "C:\vault" else "/vault")
|}.

Definition withUnlinkErr (h : Host) (err : string -> option string) : Host := {|
  platform := platform h; homedir := homedir h; tmpdir := tmpdir h;
  cwd := cwd h; env := env h; isAbsolute := isAbsolute h; join := join h;
  pathBasename := pathBasename h; accessX := accessX h;
  existsSync := existsSync h; readFileSync := readFileSync h;
  execResult := execResult h; vaultRead := vaultRead h;
  writeFileErr := writeFileErr h; unlinkErr := err; mkdirErr := mkdirErr h;
  basePath := basePath h
|}.

Definition withMkdirErr (h : Host) (err : string -> option string) : Host := {|
  platform := platform h; homedir := homedir h; tmpdir := tmpdir h;
  cwd := cwd h; env := env h; isAbsolute := isAbsolute h; join := join h;
  pathBasename := pathBasename h; accessX := accessX h;
  existsSync := existsSync h; readFileSync := readFileSync h;
  execResult := execResult h; vaultRead := vaultRead h;
  writeFileErr := writeFileErr h; unlinkErr := unlinkErr h; mkdirErr := err;
  basePath := basePath h
|}.

Definition noCommand : string -> ExecOptions -> ExecResult :=
  fun cmd _ => ExecFail ("Command failed: " ++ cmd).

Definition withHint (hint : string) : PandocExportSettings := {|
  pandocPath := hint;
  defaultExportDirectory := EmptyString;
  defaultFormat := "pdf";
  customArguments := EmptyString;
  pdfEngine := "auto"
|}.

Definition note : TFile := {| basename := "note"; path := "notes/note.md" |}.

(** Linux, pandoc installed in [/usr/bin], every command fails. *)
Definition linuxHost : Host :=
  sampleHost linux "/usr/local/sbin::/usr/bin"
    (fun p => String.eqb p "/usr/bin/pandoc") noCommand.

(** Linux, nothing passes the check, [which pandoc] prints a path. *)
Definition snapHost : Host :=
  sampleHost linux "/usr/bin" (fun _ => false)
    (fun cmd _ =>
       if String.eqb cmd "which pandoc"
       then ExecOk ("/snap/bin/pandoc" ++ Js.nl) EmptyString
       else ExecFail ("Command failed: " ++ cmd)).

(** macOS, nothing passes the check, every command fails. *)
Definition bareMac : Host := sampleHost darwin "/usr/bin:/bin" (fun _ => false) noCommand.

(** macOS, pandoc installed under a directory with a space in its name;
    pandoc runs and prints a warning. *)
Definition spaceMac : Host :=
  sampleHost darwin "/usr/bin:/bin"
    (fun p => String.eqb p "/opt/my tools/pandoc")
    (fun cmd _ =>
       if Js.startsWith "/bin/bash -c " cmd
       then ExecOk EmptyString "[WARNING] Missing character"
       else ExecFail ("Command failed: " ++ cmd)).

(** Windows, [C:\tools\pandoc.exe] exists, [C:\tools\pandoc] does not;
    pandoc runs. *)
Definition winHost : Host :=
  sampleHost win32 "C:\Windows"
    (fun p => String.eqb p "C:\tools\pandoc.exe")
    (fun cmd _ =>
       if Js.startsWith Js.dq cmd then ExecOk EmptyString EmptyString
       else ExecFail ("Command failed: " ++ cmd)).

(** * The export dialog and the settings tab *)

(** ** The export button of [PandocExportModal] (lines 523-536) *)

(** [format] is the format selected in the dialog. *)
Definition exportClick (h : Host) (settings : PandocExportSettings)
    (file : TFile) (format : string) : M Outcome :=
  exportDir <- getExportDirectory h settings ;;
  let outputPath := join h exportDir (basename file ++ "." ++ format) in
  exportFile h settings file format outputPath.

(** ** The test button of [PandocExportSettingTab] (lines 733-1002);
    the help panel it builds in the page is left out. *)

(** Lines 763-767 *)
Definition commonBrewPaths : list string :=
  [ "/opt/homebrew/bin/pandoc"; "/usr/local/bin/pandoc"; "/opt/local/bin/pandoc" ].

(** Lines 808-813 *)
Definition testWhichOptions (h : Host) : ExecOptions :=
  match platform h with
  | darwin => shellOnly "/bin/zsh"
  | win32 => noOptions
  | _ => shellOnly "/bin/bash"
  end.

(** Lines 805-823 *)
Definition testLookup (h : Host) : M (option string) :=
  catch
    ('(stdout, _) <- execPromise h (whichCommand h) (testWhichOptions h) ;;
     if Js.isEmpty (Js.trim stdout) then ret None
     else ret (Some (Js.trim (hd EmptyString
                                (Js.split (ascii_of_nat 10) (Js.trim stdout))))))
    (fun _ => ret None).

(** Lines 759-824: the search made for a path that is not absolute. *)
Definition testSearch (h : Host) (pandocPath : string) : M (string * bool) :=
  r2 <- (if isDarwin (platform h) then
           rb <- firstExecutable h commonBrewPaths ;;
           match rb with
           | Some p => ret (Some p)
           | None => mdfindSearch h
           end
         else ret None) ;;
  match r2 with
  | Some p => ret (p, true)
  | None =>
      r3 <- testLookup h ;;
      match r3 with
      | Some p => ret (p, true)
      | None => ret (pandocPath, false)
      end
  end.

(** Lines 737-825: the values of [finalPath] and [foundPath]. *)
Definition testResolve (h : Host) (pandocPath : string) : M (string * bool) :=
  r1 <- (if isAbsolute h pandocPath then attempt (accessOrExe h pandocPath)
         else ret None) ;;
  match r1 with
  | Some _ => ret (pandocPath, true)
  | None =>
      if negb (isAbsolute h pandocPath) then testSearch h pandocPath
      else ret (pandocPath, false)
  end.

(** Lines 828-833 *)
Definition testCommand (h : Host) (finalPath : string) : string :=
  if isWin32 (platform h) then Js.dq ++ finalPath ++ Js.dq ++ " --version"
  else "/bin/bash -c " ++ Js.dq ++ finalPath ++ " --version" ++ Js.dq.

Definition testingNotice (pandocPath : string) : string :=
  "正在测试Pandoc: " ++ pandocPath ++ "...".

Definition testSuccessNotice (stdout : string) : string :=
  "测试成功: " ++ hd EmptyString (Js.split (ascii_of_nat 10) stdout).

Definition testEmptyNotice : string := "Pandoc测试结果为空，可能有问题".

Definition testFailureNotice (message : string) : string :=
  "测试失败: " ++ (if Js.isEmpty message then "未知错误" else message)
  ++ Js.nl ++ Js.nl ++ "请查看开发者控制台(Ctrl+Shift+I)获取详细信息。".

Definition mdfindHeadCommand : string := mdfindCommand ++ " | head -n 5".

Definition zshPathCommand : string :=
  "zsh -c " ++ Js.dq ++ "echo $PATH" ++ Js.dq.

(** Lines 910-994: the commands run for the help panel. *)
Definition testDiagnostics (h : Host) : M unit :=
  match platform h with
  | win32 => ret tt
  | darwin =>
      attempt (execPromise h mdfindHeadCommand (shellOnly "/bin/zsh")) ;;;
      attempt (execPromise h zshPathCommand (shellOnly "/bin/zsh")) ;;;
      ret tt
  | _ =>
      attempt (execPromise h "echo $PATH" (shellOnly "/bin/bash")) ;;;
      ret tt
  end.

(** The click handler; the value tells whether the test succeeded. *)
Definition testPandoc (h : Host) (pandocPath : string) : M bool :=
  catch
    (Notice (testingNotice pandocPath) ;;;
     '(finalPath, _) <- testResolve h pandocPath ;;
     '(stdout, _) <- execPromise h (testCommand h finalPath) (execOptions h) ;;
     if Js.isEmpty stdout then Notice testEmptyNotice ;;; ret false
     else Notice (testSuccessNotice stdout) ;;; ret true)
    (fun message =>
       Notice (testFailureNotice message) ;;;
       testDiagnostics h ;;;
       ret false).

(** ** The folder button of [PandocExportSettingTab] (lines 596-726);
    the list it builds in the page is left out. *)

(** An [fs.Dirent]. *)
Record Dirent := {
  name : string;
  isDirectory : bool
}.

(** What the folder button needs of the host beyond [Host]. *)
Record FolderHost := {
  dirname : string -> string;                          (* path.dirname *)
  readdirResult : string -> string + list Dirent       (* fs.promises.readdir *)
}.

(** [await fs.promises.access(p)]: without a mode the test is for
    existence. *)
Definition accessF (h : Host) (p : string) : M unit :=
  emit (EvExists p) ;;;
  if existsSync h p then ret tt else throw "ENOENT".

Definition readdir (fx : FolderHost) (p : string) : M (list Dirent) :=
  emit (EvReaddir p) ;;;
  match readdirResult fx p with
  | inl msg => throw msg
  | inr files => ret files
  end.

(** Lines 609-614 *)
Definition commonDirs : list string :=
  [ "/usr/local/bin"; "/usr/bin"; "/opt/homebrew/bin"; "/opt/local/bin" ].

(** Lines 616-625: [dirPath] after the loop; it starts as [currentPath]. *)
Fixpoint firstCommonDir (h : Host) (currentPath : string) (dirs : list string)
  : M string :=
  match dirs with
  | [] => ret currentPath
  | commonDir :: rest =>
      r <- attempt (accessF h (join h commonDir currentPath)) ;;
      match r with
      | Some _ => ret commonDir
      | None => firstCommonDir h currentPath rest
      end
  end.

(** Lines 599-637: the value of [dirPath]. *)
Definition folderDir (h : Host) (fx : FolderHost) (currentPath : string)
  : M string :=
  if isAbsolute h currentPath then ret (dirname fx currentPath)
  else if negb (String.eqb currentPath "pandoc") then
    firstCommonDir h currentPath commonDirs
  else
    catch
      ('(stdout, _) <- execPromise h "which pandoc" (shellOnly "/bin/bash") ;;
       if Js.isEmpty (Js.trim stdout) then ret currentPath
       else ret (dirname fx (Js.trim stdout)))
      (fun _ => ret "/usr/local/bin").

(** Lines 690-691 *)
Definition isProbablyExecutable (fileName : string) : bool :=
  negb (Js.includes "." fileName)
  || existsb (fun ext => Js.endsWith ext fileName)
             [".sh"; ".bash"; ".py"; ".pl"; ".rb"].

(** Lines 667-710: the final value of [pandocFound]. *)
Definition pandocListed (h : Host) (currentPath : string) (files : list Dirent)
  : bool :=
  existsb (fun file => String.eqb (name file) "pandoc"
                       || String.eqb (name file) (pathBasename h currentPath))
          files.

Definition folderMissing (dirPath : string) : string :=
  "目录不存在或无法访问: " ++ dirPath.

Definition folderNotice (message : string) : string :=
  "无法查看文件夹: " ++ message.

(** The click handler: the directory shown, its entries and whether pandoc
    is reported as found; nothing when the handler ends in its [catch]. *)
Definition viewFolder (h : Host) (fx : FolderHost) (currentPath : string)
  : M (option (string * list Dirent * bool)) :=
  catch
    (dirPath <- folderDir h fx currentPath ;;
     catch (accessF h dirPath) (fun _ => throw (folderMissing dirPath)) ;;;
     files <- readdir fx dirPath ;;
     ret (Some (dirPath, files, pandocListed h currentPath files)))
    (fun message => Notice (folderNotice message) ;;; ret None).

(** ** Further vocabulary *)

(** A probe of the resolver: a check, a read of the shell profile, or a
    command run without forwarding the environment. *)
Definition shellProbe (e : Event) : bool :=
  match e with
  | EvAccess _ _ | EvExists _ | EvReadFile _ => true
  | EvExec _ opts => match optEnv opts with None => true | Some _ => false end
  | _ => false
  end.

Definition isNotice (e : Event) : bool :=
  match e with EvNotice _ => true | _ => false end.

(** Some character of [s] satisfies [f]. *)
Fixpoint anyChar (f : ascii -> bool) (s : string) : bool :=
  match s with
  | EmptyString => false
  | String c s' => f c || anyChar f s'
  end.

Definition isNewline (c : ascii) : bool := Ascii.eqb c (ascii_of_nat 10).

(** A check that failed. *)
Definition failedAccess (e : Event) : bool :=
  match e with EvAccess _ false => true | _ => false end.

(** ** Further sample hosts *)

Definition withWriteErr (h : Host) (err : string -> option string) : Host := {|
  platform := platform h; homedir := homedir h; tmpdir := tmpdir h;
  cwd := cwd h; env := env h; isAbsolute := isAbsolute h; join := join h;
  pathBasename := pathBasename h; accessX := accessX h;
  existsSync := existsSync h; readFileSync := readFileSync h;
  execResult := execResult h; vaultRead := vaultRead h;
  writeFileErr := err; unlinkErr := unlinkErr h; mkdirErr := mkdirErr h;
  basePath := basePath h
|}.

Definition withFiles (h : Host) (present : string -> bool)
    (content : string -> option string) : Host := {|
  platform := platform h; homedir := homedir h; tmpdir := tmpdir h;
  cwd := cwd h; env := env h; isAbsolute := isAbsolute h; join := join h;
  pathBasename := pathBasename h; accessX := accessX h;
  existsSync := present; readFileSync := content;
  execResult := execResult h; vaultRead := vaultRead h;
  writeFileErr := writeFileErr h; unlinkErr := unlinkErr h;
  mkdirErr := mkdirErr h; basePath := basePath h
|}.

(** A note whose name mentions a PDF engine. *)
Definition engineNote : TFile :=
  {| basename := "xelatex"; path := "tex/xelatex.md" |}.

(** Linux, pandoc in [/usr/bin], the disk is full. *)
Definition fullDisk : Host :=
  withWriteErr linuxHost
    (fun p => Some ("ENOSPC: no space left on device, open " ++ Js.sq ++ p
                    ++ Js.sq)%string).

(** macOS, pandoc only inside an application bundle, which mdfind lists
    after a manual page. *)
Definition bundleMac : Host :=
  sampleHost darwin "/usr/bin:/bin"
    (fun p => String.eqb p "/Applications/Pandoc.app/Contents/pandoc")
    (fun cmd _ =>
       if String.eqb cmd mdfindCommand
       then ExecOk ("/usr/share/man/man1/pandoc.1" ++ Js.nl
                    ++ "/Applications/Pandoc.app/Contents/pandoc" ++ Js.nl)
                   EmptyString
       else ExecFail ("Command failed: " ++ cmd)).

(** macOS with a shell profile that cannot be read. *)
Definition lockedProfileMac : Host :=
  withFiles bareMac (fun p => String.eqb p "/home/u/.zshrc") (fun _ => None).

(** macOS with a shell profile that sets the search path. *)
Definition profileMac : Host :=
  withFiles bareMac (fun p => String.eqb p "/home/u/.zshrc")
    (fun _ => Some ("export PATH=" ++ Js.dq ++ "/opt/pandoc/bin:$PATH" ++ Js.dq
                    ++ Js.nl ++ "export PATH=$PATH:/opt/homebrew/bin"
                    ++ Js.nl)%string).

(** Linux, pandoc at [tools/pandoc] under the working directory. *)
Definition localToolHost : Host :=
  sampleHost linux "/usr/bin"
    (fun p => String.eqb p "/home/u/tools/pandoc") noCommand.

(** The first line of the test button's lookup, when it ran and printed
    some. *)
Definition testAnswer (h : Host) : option string :=
  match execResult h (whichCommand h) (testWhichOptions h) with
  | ExecOk stdout _ =>
      if Js.isEmpty (Js.trim stdout) then None
      else Some (Js.trim (hd EmptyString
                             (Js.split (ascii_of_nat 10) (Js.trim stdout))))
  | ExecFail _ => None
  end.

(** Whether the version command ran and printed something. *)
Definition versionPrinted (h : Host) (finalPath : string) : bool :=
  match execResult h (testCommand h finalPath) (execOptions h) with
  | ExecOk stdout _ => negb (Js.isEmpty stdout)
  | ExecFail _ => false
  end.

(** [path.dirname] on plain POSIX paths. *)
Definition sampleDirname (p : string) : string :=
  String.concat "/" (removelast (Js.split "/"%char p)).

(** [/usr/bin] holds a directory called pandoc and a script. *)
Definition sampleFolders : FolderHost := {|
  dirname := sampleDirname;
  readdirResult := fun p =>
    if String.eqb p "/usr/bin"
    then inr [ {| name := "pandoc"; isDirectory := true |};
               {| name := "run.sh"; isDirectory := false |} ]
    else inl ("ENOENT: no such file or directory, scandir " ++ Js.sq ++ p
              ++ Js.sq)%string
|}.

(** Linux, [/usr/bin] exists, [which pandoc] prints a path in it. *)
Definition folderHost : Host :=
  withFiles
    (sampleHost linux "/usr/bin" (fun _ => false)
       (fun cmd _ =>
          if String.eqb cmd "which pandoc"
          then ExecOk ("/usr/bin/pandoc" ++ Js.nl) EmptyString
          else ExecFail ("Command failed: " ++ cmd)))
    (fun p => String.eqb p "/usr/bin") (fun _ => None).

(** What the test button does after the version command. *)
Definition testEpilogue (h : Host) (finalPath : string) : list Event :=
  match execResult h (testCommand h finalPath) (execOptions h) with
  | ExecOk stdout _ =>
      [EvNotice (if Js.isEmpty stdout then testEmptyNotice
                 else testSuccessNotice stdout)]
  | ExecFail msg => EvNotice (testFailureNotice msg) :: trace (testDiagnostics h)
  end.

(** ** Statements that the code does not keep, and hosts that show it *)


(** A failure whose message names a PDF engine is reported as a missing
    engine, as a property of one call. *)
Definition engineNameDecides (h : Host) (settings : PandocExportSettings)
    (file : TFile) (format outputPath : string) : Prop :=
  forall message,
    invocation h settings file format outputPath = Some (ExecFail message) ->
    (Js.includes "pdflatex" message || Js.includes "xelatex" message
     || Js.includes "wkhtmltopdf" message || Js.includes "weasyprint" message)
    = true ->
    outcome (exportFile h settings file format outputPath) = inr EngineMissing.



(** Linux, pandoc in [/usr/bin]; a run of pandoc fails in LaTeX. *)
Definition latexFailHost : Host :=
  sampleHost linux "/usr/bin" (fun p => String.eqb p "/usr/bin/pandoc")
    (fun cmd _ => ExecFail ("Command failed: " ++ cmd ++ Js.nl
                            ++ "Error producing PDF.")%string).

Definition pdflatexSettings : PandocExportSettings := {|
  pandocPath := "pandoc";
  defaultExportDirectory := EmptyString;
  defaultFormat := "pdf";
  customArguments := "--pdf-engine=pdflatex";
  pdfEngine := "auto"
|}.

(** Linux, pandoc in [/usr/bin]; pandoc reports that the engine is not
    installed. *)
Definition noEngineHost : Host :=
  sampleHost linux "/usr/bin" (fun p => String.eqb p "/usr/bin/pandoc")
    (fun _ _ => ExecFail "pdflatex not found. Please select a different --pdf-engine or install pdflatex").

(** Linux, nothing passes the check, [which pandoc] prints a path that the
    shell then does not find. *)
Definition staleLookupHost : Host :=
  sampleHost linux "/usr/bin" (fun _ => false)
    (fun cmd _ =>
       if String.eqb cmd "which pandoc"
       then ExecOk ("/snap/bin/pandoc" ++ Js.nl) EmptyString
       else ExecFail "/bin/bash: line 1: /snap/bin/pandoc: command not found").

(** * Properties *)

(** ** Strings *)

Lemma prefix_app (p s : string) : String.prefix p (p ++ s) = true.
Proof.
  induction p as [|c p IH]; simpl.
  - now destruct s.
  - destruct (ascii_dec c c) as [_|n]; [exact IH | now destruct n].
Qed.

Lemma includes_prefix (p s : string) :
  String.prefix p s = true -> Js.includes p s = true.
Proof. intros H. destruct s; cbn [Js.includes]; now rewrite H. Qed.

Lemma includes_app_left (p s : string) : Js.includes p (p ++ s) = true.
Proof. apply includes_prefix, prefix_app. Qed.

Lemma isEmpty_false (s : string) : s <> EmptyString -> Js.isEmpty s = false.
Proof. destruct s; [congruence | reflexivity]. Qed.

Lemma isEmpty_true (s : string) : Js.isEmpty s = true -> s = EmptyString.
Proof. destruct s; [reflexivity | discriminate]. Qed.

(** ** Computations *)

Lemma bind_value {A B} (m : M A) (k : A -> M B) t a :
  m = (t, inr a) -> bind m k = (t ++ trace (k a), outcome (k a)).
Proof. intros ->. unfold bind, trace, outcome. now destruct (k a). Qed.

Lemma bind_error {A B} (m : M A) (k : A -> M B) t e :
  m = (t, inl e) -> bind m k = (t, inl e).
Proof. now intros ->. Qed.

Lemma surjective_run {A} (m : M A) : m = (trace m, outcome m).
Proof. now destruct m. Qed.

(** ** The configured path *)

Lemma access_run (h : Host) (p : string) :
  access h p =
  ([EvAccess p (accessX h p)], if accessX h p then inr tt else inl "EACCES").
Proof. unfold access, emit, bind. simpl. now destruct (accessX h p). Qed.

Lemma accessOrExe_run (h : Host) (p : string) :
  accessOrExe h p =
  if accessX h p then ([EvAccess p true], inr tt)
  else if isWin32 (platform h) && negb (Js.endsWith ".exe" p)
       then ([EvAccess p false; EvAccess (p ++ ".exe") (accessX h (p ++ ".exe"))],
             if accessX h (p ++ ".exe") then inr tt else inl "EACCES")
       else ([EvAccess p false], inl EmptyString).
Proof.
  unfold accessOrExe. rewrite access_run.
  destruct (accessX h p); simpl; [reflexivity|].
  destruct (isWin32 (platform h) && negb (Js.endsWith ".exe" p)); simpl.
  - rewrite access_run. now destruct (accessX h (p ++ ".exe")).
  - reflexivity.
Qed.

Lemma accessOrExe_outcome (h : Host) (p : string) :
  (hintPasses h p = true -> outcome (accessOrExe h p) = inr tt) /\
  (hintPasses h p = false -> exists e, outcome (accessOrExe h p) = inl e).
Proof.
  rewrite accessOrExe_run. unfold hintPasses.
  destruct (accessX h p); simpl; [split; [reflexivity|discriminate]|].
  destruct (isWin32 (platform h) && negb (Js.endsWith ".exe" p)); simpl.
  - destruct (accessX h (p ++ ".exe")); simpl;
      (split; [try reflexivity; discriminate | try discriminate; eauto]).
  - split; [discriminate | eauto].
Qed.

Lemma accessOrExe_trace (h : Host) (p : string) :
  forallb isAccess (trace (accessOrExe h p)) = true.
Proof.
  rewrite accessOrExe_run.
  destruct (accessX h p); [reflexivity|].
  now destruct (isWin32 (platform h) && negb (Js.endsWith ".exe" p)).
Qed.

Lemma accessOrExe_checked (h : Host) (p : string) :
  outcome (accessOrExe h p) = inr tt ->
  checked p (trace (accessOrExe h p)) \/
  (platform h = win32 /\ Js.endsWith ".exe" p = false /\
   accessX h p = false /\
   checked (p ++ ".exe") (trace (accessOrExe h p))).
Proof.
  rewrite accessOrExe_run. unfold checked.
  destruct (accessX h p) eqn:Hp; [left; simpl; auto|].
  destruct (platform h) eqn:Hpl; cbn; try discriminate.
  destruct (Js.endsWith ".exe" p) eqn:He; cbn; try discriminate.
  destruct (accessX h (p ++ ".exe")) eqn:Hx; cbn; try discriminate.
  intros _. right. repeat split; auto.
Qed.

Lemma userHint_run (h : Host) (hint : string) :
  userHint h hint =
  if hintConsidered hint then
    (trace (accessOrExe h (hintCandidate h hint)),
     inr (match outcome (accessOrExe h (hintCandidate h hint)) with
          | inr _ => Some (hintCandidate h hint, hintProvenance h hint)
          | inl _ => None
          end))
  else ([], inr None).
Proof.
  unfold userHint, hintConsidered, hintCandidate, hintProvenance.
  destruct (negb (Js.isEmpty hint) && negb (String.eqb hint "pandoc"));
    [|reflexivity].
  destruct (isAbsolute h hint);
    (match goal with |- context [accessOrExe h ?p] =>
       destruct (accessOrExe h p) as [t [e|[]]] end);
    unfold catch, bind, ret, trace, outcome; simpl;
    now rewrite ?app_nil_r.
Qed.

(** ** The enumeration of directories *)

Lemma searchDirs_cons (h : Host) (dir : string) (rest : list string) :
  searchDirs h (dir :: rest) =
  if Js.isEmpty dir then searchDirs h rest
  else if accessX h (exeIn h dir)
       then ([EvAccess (exeIn h dir) true], inr (Some (exeIn h dir)))
       else (EvAccess (exeIn h dir) false :: trace (searchDirs h rest),
             outcome (searchDirs h rest)).
Proof.
  cbn [searchDirs]. destruct (Js.isEmpty dir); [reflexivity|].
  fold (exeIn h dir). rewrite access_run.
  destruct (accessX h (exeIn h dir)); [reflexivity|].
  destruct (searchDirs h rest) as [t r]. reflexivity.
Qed.

Lemma searchDirs_outcome (h : Host) (dirs : list string) :
  outcome (searchDirs h dirs)
  = inr (option_map (exeIn h) (find (holdsPandoc h) dirs)).
Proof.
  induction dirs as [|dir rest IH]; [reflexivity|].
  rewrite searchDirs_cons. cbn [find]. unfold holdsPandoc at 1.
  fold (exeIn h dir).
  destruct (Js.isEmpty dir); cbn [negb andb]; [exact IH|].
  destruct (accessX h (exeIn h dir)); [reflexivity | exact IH].
Qed.

Lemma searchDirs_trace (h : Host) (dirs : list string) :
  forallb isAccess (trace (searchDirs h dirs)) = true.
Proof.
  induction dirs as [|dir rest IH]; [reflexivity|].
  rewrite searchDirs_cons.
  destruct (Js.isEmpty dir); [exact IH|].
  destruct (accessX h (exeIn h dir)); [reflexivity | exact IH].
Qed.

Lemma searchDirs_checked (h : Host) (dirs : list string) (p : string) :
  outcome (searchDirs h dirs) = inr (Some p) ->
  checked p (trace (searchDirs h dirs)).
Proof.
  unfold checked. induction dirs as [|dir rest IH]; [discriminate|].
  rewrite searchDirs_cons.
  destruct (Js.isEmpty dir); [exact IH|].
  destruct (accessX h (exeIn h dir)).
  - cbn. intros [= <-]. now left.
  - cbn. intros H. right. now apply IH.
Qed.



Lemma pushNew_extends (arr dirs : list string) :
  exists extra, Js.pushNew arr dirs = arr ++ extra.
Proof.
  unfold Js.pushNew. revert arr.
  induction dirs as [|d dirs IH]; intros arr; cbn.
  - exists []. now rewrite app_nil_r.
  - destruct (Js.arrIncludes d arr); [apply IH|].
    destruct (IH (arr ++ [d])) as [extra E]. exists (d :: extra).
    rewrite E, <- app_assoc. reflexivity.
Qed.

(** ** The mdfind query and the which/where lookup *)

Lemma firstExecutable_cons (h : Host) (p : string) (rest : list string) :
  firstExecutable h (p :: rest) =
  if accessX h p then ([EvAccess p true], inr (Some p))
  else (EvAccess p false :: trace (firstExecutable h rest),
        outcome (firstExecutable h rest)).
Proof.
  cbn [firstExecutable]. rewrite access_run.
  destruct (accessX h p); [reflexivity|].
  destruct (firstExecutable h rest) as [t r]. reflexivity.
Qed.

Lemma firstExecutable_outcome (h : Host) (paths : list string) :
  outcome (firstExecutable h paths) = inr (find (accessX h) paths).
Proof.
  induction paths as [|p rest IH]; [reflexivity|].
  rewrite firstExecutable_cons. cbn [find].
  destruct (accessX h p); [reflexivity | exact IH].
Qed.

Lemma firstExecutable_checked (h : Host) (paths : list string) (p : string) :
  outcome (firstExecutable h paths) = inr (Some p) ->
  checked p (trace (firstExecutable h paths)).
Proof.
  unfold checked. induction paths as [|q rest IH]; [discriminate|].
  rewrite firstExecutable_cons. destruct (accessX h q); cbn.
  - intros [= <-]. now left.
  - intros H. right. now apply IH.
Qed.

Lemma mdfindSearch_run (h : Host) :
  mdfindSearch h =
  (EvExec mdfindCommand (shellOnly "/bin/zsh")
     :: trace (firstExecutable h (mdfindLines h)),
   outcome (firstExecutable h (mdfindLines h))).
Proof.
  unfold mdfindSearch, mdfindLines, execPromise.
  destruct (execResult h mdfindCommand (shellOnly "/bin/zsh")) as [out err|msg];
    [|reflexivity].
  cbn. destruct (Js.isEmpty (Js.trim out)); [reflexivity|].
  pose proof (firstExecutable_outcome h
                (Js.split (ascii_of_nat 10) (Js.trim out))) as E.
  destruct (firstExecutable h _) as [t r]. cbn in *. now rewrite E.
Qed.

Lemma whichLookup_run (h : Host) :
  whichLookup h
  = ([EvExec (whichCommand h) (whichOptions h)], inr (whichAnswer h)).
Proof.
  unfold whichLookup, whichAnswer, execPromise.
  destruct (execResult h (whichCommand h) (whichOptions h)) as [out err|msg];
    [|reflexivity].
  cbn. now destruct (Js.isEmpty (Js.trim out)).
Qed.

(** ** The macOS additions to [commonPaths] *)




Lemma forallb_weaken {A} (f g : A -> bool) (l : list A) :
  (forall x, f x = true -> g x = true) ->
  forallb f l = true -> forallb g l = true.
Proof.
  intros Hfg. induction l as [|x l IH]; [reflexivity|].
  cbn. intros [Hx Hl]%andb_prop. now rewrite (Hfg x Hx), IH.
Qed.


Lemma macCommonPaths_run (h : Host) (cp : list string) :
  exists t extra,
    macCommonPaths h cp = (t, inr (cp ++ extra)) /\ forallb macEvent t = true.
Proof.
  assert (Hext : forall base l, exists extra,
             Js.pushNew (Js.pushNew (cp ++ base) l) brewM1Paths = cp ++ extra).
  { intros base l.
    destruct (pushNew_extends (cp ++ base) l) as [e1 E1].
    destruct (pushNew_extends (Js.pushNew (cp ++ base) l) brewM1Paths) as [e2 E2].
    exists (base ++ e1 ++ e2). rewrite E2, E1, <- !app_assoc. reflexivity. }
  assert (Hext0 : forall base, exists extra,
             Js.pushNew (cp ++ base) brewM1Paths = cp ++ extra).
  { intros base.
    destruct (pushNew_extends (cp ++ base) brewM1Paths) as [e2 E2].
    exists (base ++ e2). rewrite E2, <- !app_assoc. reflexivity. }
  pose proof (Hext []) as Hnil. pose proof (Hext0 []) as Hnil0.
  rewrite app_nil_r in Hnil, Hnil0.
  unfold macCommonPaths, fileExists, readFile, execPromise.
  remember (join h (homedir h) ".zshrc") as zshrcPath eqn:Hz. clear Hz.
  (destruct (existsSync h zshrcPath);
   [ destruct (readFileSync h zshrcPath) as [zshrc|];
     [ destruct (execResult h "echo $PATH" (shellOnly "/bin/zsh"))
         as [out err|msg];
       [ destruct (Js.isEmpty (Js.trim out)) eqn:Hout;
         [ destruct (Hext0 (zshrcPaths zshrc)) as [extra E]
         | destruct (Hext (zshrcPaths zshrc)
                       (filter (fun d => negb (Js.isEmpty d))
                               (Js.split ":"%char (Js.trim out))))
             as [extra E] ]
       | destruct (Hext0 (zshrcPaths zshrc)) as [extra E] ]
     | exists [EvExists zshrcPath; EvReadFile zshrcPath], [];
       rewrite app_nil_r; split; reflexivity ]
   | destruct (execResult h "echo $PATH" (shellOnly "/bin/zsh"))
       as [out err|msg];
     [ destruct (Js.isEmpty (Js.trim out)) eqn:Hout;
       [ destruct Hnil0 as [extra E]
       | destruct (Hnil (filter (fun d => negb (Js.isEmpty d))
                                (Js.split ":"%char (Js.trim out))))
           as [extra E] ]
     | destruct Hnil0 as [extra E] ] ]);
  (eexists _, extra;
   cbn -[Js.pushNew zshrcPaths brewM1Paths Js.split Js.trim Js.isEmpty];
   rewrite ?Hout, E; split; reflexivity).
Qed.

(** ** The whole search *)

Lemma commonPaths_stage (h : Host) :
  exists t extra,
    (if isDarwin (platform h) then macCommonPaths h commonPaths
     else ret commonPaths) = (t, inr (commonPaths ++ extra))
    /\ forallb macEvent t = true.
Proof.
  destruct (isDarwin (platform h)).
  - apply macCommonPaths_run.
  - exists [], []. now rewrite app_nil_r.
Qed.

Lemma searchPandoc_run (h : Host) :
  exists t0 extra,
    forallb macEvent t0 = true /\
    let dirs := allPaths h (commonPaths ++ extra) in
    searchPandoc h =
    match find (holdsPandoc h) dirs with
    | Some d => (t0 ++ trace (searchDirs h dirs), inr (exeIn h d, PathSearch))
    | None => (t0 ++ trace (searchDirs h dirs) ++ trace (lastResort h),
               outcome (lastResort h))
    end.
Proof.
  destruct (commonPaths_stage h) as (t0 & extra & E & Hq).
  exists t0, extra. split; [exact Hq|]. intros dirs.
  unfold searchPandoc. rewrite (bind_value _ _ _ _ E).
  fold dirs. fold (lastResort h).
  pose proof (searchDirs_outcome h dirs) as Ho.
  rewrite (surjective_run (searchDirs h dirs)), Ho.
  destruct (find (holdsPandoc h) dirs) as [d|]; cbn [option_map].
  - unfold bind, ret, trace, outcome. cbn. now rewrite !app_nil_r.
  - unfold bind at 1. cbn [trace outcome fst snd].
    rewrite (surjective_run (lastResort h)). cbn [trace outcome fst snd].
    reflexivity.
Qed.

Lemma lastResort_run (h : Host) :
  lastResort h =
  if isDarwin (platform h) then
    match find (accessX h) (mdfindLines h) with
    | Some p => (trace (mdfindSearch h), inr (p, FilesystemSearch))
    | None =>
        (trace (mdfindSearch h) ++ [EvExec (whichCommand h) (whichOptions h)],
         match whichAnswer h with
         | Some p => inr (p, WhichCommand)
         | None => inl notFoundMessage
         end)
    end
  else
    ([EvExec (whichCommand h) (whichOptions h)],
     match whichAnswer h with
     | Some p => inr (p, WhichCommand)
     | None => inl notFoundMessage
     end).
Proof.
  unfold lastResort. rewrite whichLookup_run.
  destruct (isDarwin (platform h)).
  - rewrite mdfindSearch_run, firstExecutable_outcome.
    cbn [trace outcome fst snd].
    destruct (find (accessX h) (mdfindLines h)) as [p|].
    + unfold bind, ret. cbn. now rewrite app_nil_r.
    + unfold bind, ret, throw. cbn.
      now destruct (whichAnswer h); cbn; rewrite ?app_nil_r.
  - unfold bind, ret, throw. cbn. now destruct (whichAnswer h).
Qed.

Lemma resolvePandoc_run (h : Host) (settings : PandocExportSettings) :
  let hint := pandocPath settings in
  let cand := hintCandidate h hint in
  resolvePandoc h settings =
  if hintConsidered hint then
    match outcome (accessOrExe h cand) with
    | inr _ => (trace (accessOrExe h cand), inr (cand, hintProvenance h hint))
    | inl _ => (trace (accessOrExe h cand) ++ trace (searchPandoc h),
                outcome (searchPandoc h))
    end
  else searchPandoc h.
Proof.
  intros hint cand. unfold resolvePandoc. fold hint.
  rewrite userHint_run. fold cand.
  destruct (hintConsidered hint).
  - destruct (outcome (accessOrExe h cand)) as [e|[]].
    + unfold bind. rewrite (surjective_run (searchPandoc h)). reflexivity.
    + unfold bind, ret. now rewrite app_nil_r.
  - unfold bind. rewrite (surjective_run (searchPandoc h)). reflexivity.
Qed.

Lemma userHint_fails (h : Host) (settings : PandocExportSettings) :
  hintFails h settings = true <->
  outcome (userHint h (pandocPath settings)) = inr None.
Proof.
  unfold hintFails. rewrite userHint_run.
  destruct (hintConsidered (pandocPath settings)); cbn; [|tauto].
  destruct (accessOrExe_outcome h (hintCandidate h (pandocPath settings)))
    as [Hyes Hno].
  destruct (hintPasses h (hintCandidate h (pandocPath settings))); cbn.
  - rewrite Hyes by reflexivity. split; discriminate.
  - destruct Hno as [e ->]; [reflexivity|]. tauto.
Qed.

Lemma resolvePandoc_after_hint (h : Host) (settings : PandocExportSettings) :
  hintFails h settings = true ->
  exists t1,
    forallb isAccess t1 = true /\
    resolvePandoc h settings = (t1 ++ trace (searchPandoc h),
                                outcome (searchPandoc h)).
Proof.
  intros Hf. pose proof (resolvePandoc_run h settings) as E. cbn zeta in E.
  unfold hintFails in Hf.
  destruct (hintConsidered (pandocPath settings)); cbn in Hf.
  - destruct (accessOrExe_outcome h (hintCandidate h (pandocPath settings)))
      as [_ Hno].
    destruct (hintPasses h (hintCandidate h (pandocPath settings)));
      [discriminate|].
    destruct Hno as [e He]; [reflexivity|]. rewrite He in E.
    eexists. split; [apply accessOrExe_trace | exact E].
  - exists []. split; [reflexivity|].
    rewrite E. apply surjective_run.
Qed.

(** ** What the search returns *)

Lemma holdsPandoc_checked (h : Host) (dirs : list string) (d : string) :
  find (holdsPandoc h) dirs = Some d ->
  checked (exeIn h d) (trace (searchDirs h dirs)) /\ accessX h (exeIn h d) = true.
Proof.
  intros F. split.
  - apply searchDirs_checked. now rewrite searchDirs_outcome, F.
  - apply find_some in F as [_ F]. unfold holdsPandoc in F.
    now apply andb_prop in F as [_ F].
Qed.

Lemma mdfind_checked (h : Host) (p : string) :
  find (accessX h) (mdfindLines h) = Some p ->
  checked p (trace (mdfindSearch h)) /\ accessX h p = true.
Proof.
  intros F. split.
  - rewrite mdfindSearch_run. right.
    apply firstExecutable_checked. now rewrite firstExecutable_outcome, F.
  - now apply find_some in F as [_ F].
Qed.

Lemma searchPandoc_found (h : Host) (p : string) (prov : Provenance) :
  outcome (searchPandoc h) = inr (p, prov) ->
  match prov with
  | UserAbsolute | UserRelative => False
  | PathSearch | FilesystemSearch =>
      checked p (trace (searchPandoc h)) /\ accessX h p = true
  | WhichCommand => whichAnswer h = Some p
  end.
Proof.
  destruct (searchPandoc_run h) as (t0 & extra & _ & E). cbn zeta in E.
  rewrite E. clear E. unfold checked.
  destruct (find (holdsPandoc h) _) as [d|] eqn:F; cbn [outcome trace fst snd].
  - intros [= <- <-]. apply holdsPandoc_checked in F as [Hc Hx].
    split; [|exact Hx]. apply in_or_app. now right.
  - rewrite lastResort_run.
    destruct (isDarwin (platform h)).
    + destruct (find (accessX h) (mdfindLines h)) as [q|] eqn:G;
        cbn [outcome trace fst snd].
      * intros [= <- <-]. apply mdfind_checked in G as [Hc Hx].
        split; [|exact Hx]. apply in_or_app. right. apply in_or_app. now right.
      * destruct (whichAnswer h); [intros [= <- <-]; reflexivity | discriminate].
    + cbn [outcome trace fst snd].
      destruct (whichAnswer h); [intros [= <- <-]; reflexivity | discriminate].
Qed.

Lemma searchPandoc_error (h : Host) (msg : string) :
  outcome (searchPandoc h) = inl msg -> msg = notFoundMessage.
Proof.
  destruct (searchPandoc_run h) as (t0 & extra & _ & E). cbn zeta in E.
  rewrite E. clear E.
  destruct (find (holdsPandoc h) _) as [d|]; cbn [outcome snd]; [discriminate|].
  rewrite lastResort_run.
  destruct (isDarwin (platform h)).
  - destruct (find (accessX h) (mdfindLines h)); cbn [outcome snd];
      [discriminate|].
    destruct (whichAnswer h); [discriminate | now intros [= <-]].
  - cbn [outcome snd].
    destruct (whichAnswer h); [discriminate | now intros [= <-]].
Qed.

Lemma access_probe (t : list Event) :
  forallb isAccess t = true -> forallb isProbe t = true.
Proof. apply forallb_weaken. now intros []. Qed.

Lemma macEvent_probe (t : list Event) :
  forallb macEvent t = true -> forallb isProbe t = true.
Proof. apply forallb_weaken. now intros []. Qed.

Lemma firstExecutable_trace (h : Host) (paths : list string) :
  forallb isAccess (trace (firstExecutable h paths)) = true.
Proof.
  induction paths as [|p rest IH]; [reflexivity|].
  rewrite firstExecutable_cons. destruct (accessX h p); [reflexivity | exact IH].
Qed.

Lemma lastResort_probes (h : Host) :
  forallb isProbe (trace (lastResort h)) = true.
Proof.
  assert (Hm : forallb isProbe (trace (mdfindSearch h)) = true).
  { rewrite mdfindSearch_run. cbn. apply access_probe, firstExecutable_trace. }
  rewrite lastResort_run. destruct (isDarwin (platform h)); [|reflexivity].
  destruct (find (accessX h) (mdfindLines h)); cbn [trace fst]; [exact Hm|].
  rewrite forallb_app, Hm. reflexivity.
Qed.

Lemma searchPandoc_probes (h : Host) :
  forallb isProbe (trace (searchPandoc h)) = true.
Proof.
  destruct (searchPandoc_run h) as (t0 & extra & H0 & E). cbn zeta in E.
  rewrite E. clear E. apply macEvent_probe in H0.
  pose proof (access_probe _ (searchDirs_trace h
                (allPaths h (commonPaths ++ extra)))) as Hs.
  destruct (find (holdsPandoc h) _); cbn [trace fst];
    rewrite !forallb_app, H0, Hs; [reflexivity|].
  now rewrite lastResort_probes.
Qed.

Lemma resolvePandoc_probes (h : Host) (settings : PandocExportSettings) :
  forallb isProbe (trace (resolvePandoc h settings)) = true.
Proof.
  pose proof (resolvePandoc_run h settings) as E. cbn zeta in E. rewrite E.
  pose proof (access_probe _ (accessOrExe_trace h
                (hintCandidate h (pandocPath settings)))) as Ha.
  destruct (hintConsidered (pandocPath settings)); [|apply searchPandoc_probes].
  destruct (outcome (accessOrExe h _)); cbn [trace fst]; [|exact Ha].
  now rewrite forallb_app, Ha, searchPandoc_probes.
Qed.

Lemma resolvePandoc_error (h : Host) (settings : PandocExportSettings)
    (msg : string) :
  outcome (resolvePandoc h settings) = inl msg -> msg = notFoundMessage.
Proof.
  pose proof (resolvePandoc_run h settings) as E. cbn zeta in E. rewrite E.
  destruct (hintConsidered (pandocPath settings)); [|apply searchPandoc_error].
  destruct (outcome (accessOrExe h _)); cbn [outcome snd];
    [apply searchPandoc_error | discriminate].
Qed.

(** ** Resolution: checks before a path is returned *)

(** C1, as stated, fails: the path printed by [which pandoc] is returned
    although no check of it was made (here every check fails). *)
Lemma which_answer_unchecked : ~ returnsOnlyChecked snapHost DEFAULT_SETTINGS.
Proof.
  intros H. specialize (H "/snap/bin/pandoc" WhichCommand eq_refl).
  unfold checked in H. vm_compute in H.
  repeat (destruct H as [H|H]; [discriminate H|]). exact H.
Qed.

(** C1, amended: a path returned by the enumeration of directories or by
    the mdfind search passed the X_OK check for that exact path during the
    call; the configured path is returned after the check passed for it
    or, on Windows, for it with [.exe] appended; the path returned by the
    which/where lookup is the first line of the lookup's output, taken as
    it is. *)
Theorem resolved_path_provenance (h : Host) (settings : PandocExportSettings)
    (p : string) (prov : Provenance) :
  outcome (resolvePandoc h settings) = inr (p, prov) ->
  let t := trace (resolvePandoc h settings) in
  match prov with
  | UserAbsolute | UserRelative =>
      checked p t \/
      (platform h = win32 /\ Js.endsWith ".exe" p = false /\
       accessX h p = false /\ checked (p ++ ".exe") t)
  | PathSearch | FilesystemSearch => checked p t
  | WhichCommand => whichAnswer h = Some p
  end.
Proof.
  pose proof (resolvePandoc_run h settings) as E. cbn zeta in E.
  rewrite E. clear E. cbn zeta.
  set (cand := hintCandidate h (pandocPath settings)).
  assert (Hsearch : forall t1,
    outcome (searchPandoc h) = inr (p, prov) ->
    match prov with
    | UserAbsolute | UserRelative =>
        checked p (t1 ++ trace (searchPandoc h)) \/
        (platform h = win32 /\ Js.endsWith ".exe" p = false /\
         accessX h p = false /\
         checked (p ++ ".exe") (t1 ++ trace (searchPandoc h)))
    | PathSearch | FilesystemSearch => checked p (t1 ++ trace (searchPandoc h))
    | WhichCommand => whichAnswer h = Some p
    end).
  { intros t1 Ho. apply searchPandoc_found in Ho. unfold checked in *.
    destruct prov; try contradiction; try exact Ho;
      apply in_or_app; right; apply Ho. }
  destruct (hintConsidered (pandocPath settings)).
  - destruct (outcome (accessOrExe h cand)) as [e|[]] eqn:Ho;
      cbn [outcome trace fst snd].
    + apply Hsearch.
    + intros [= <- <-]. apply accessOrExe_checked in Ho.
      unfold hintProvenance. now destruct (isAbsolute h (pandocPath settings)).
  - intros Ho. specialize (Hsearch [] Ho). exact Hsearch.
Qed.

Lemma resolved_path_provenance_witness :
  outcome (resolvePandoc linuxHost DEFAULT_SETTINGS)
    = inr ("/usr/bin/pandoc", PathSearch)
  /\ checked "/usr/bin/pandoc" (trace (resolvePandoc linuxHost DEFAULT_SETTINGS)).
Proof.
  split; [reflexivity|].
  exact (resolved_path_provenance linuxHost DEFAULT_SETTINGS
           "/usr/bin/pandoc" PathSearch eq_refl).
Defined.

(** ** Resolution: a configured path that is not executable *)

(** C3, as stated, fails: with [/opt/tool/conv] not executable and pandoc
    installed in [/usr/bin], the call returns [/usr/bin/pandoc]. *)
Lemma unexecutable_hint_still_resolves :
  ~ failsOnUnexecutableHint linuxHost (withHint "/opt/tool/conv").
Proof.
  intros H. destruct (H eq_refl eq_refl) as [msg Hmsg]. discriminate Hmsg.
Qed.

(** C3, amended: when the configured path is absolute and fails the check
    (on Windows also with [.exe] appended, where that is tried), the first
    stage does not return it and the result is that of the search: a path
    found by the enumeration of directories or by mdfind is not the
    configured one, the lookup's answer is returned as it is, and when the
    search finds nothing the call fails with the not-found error. *)
Theorem unexecutable_hint_defers_to_search (h : Host)
    (settings : PandocExportSettings) :
  let hint := pandocPath settings in
  isAbsolute h hint = true ->
  accessX h hint = false ->
  (platform h = win32 -> Js.endsWith ".exe" hint = false ->
   accessX h (hint ++ ".exe") = false) ->
  outcome (resolvePandoc h settings) = outcome (searchPandoc h) /\
  (forall p prov,
      outcome (resolvePandoc h settings) = inr (p, prov) ->
      match prov with
      | UserAbsolute | UserRelative => False
      | PathSearch | FilesystemSearch => p <> hint
      | WhichCommand => whichAnswer h = Some p
      end) /\
  (forall msg,
      outcome (resolvePandoc h settings) = inl msg -> msg = notFoundMessage).
Proof.
  intros hint Habs Hx Hexe.
  assert (Hf : hintFails h settings = true).
  { unfold hintFails, hintCandidate, hintPasses. fold hint.
    rewrite Habs, Hx. cbn [orb].
    destruct (hintConsidered hint); [|reflexivity]. cbn [andb].
    destruct (platform h) eqn:Hpl; try reflexivity. cbn [isWin32 andb].
    destruct (Js.endsWith ".exe" hint) eqn:He; [reflexivity|].
    now rewrite (Hexe eq_refl eq_refl). }
  destruct (resolvePandoc_after_hint h settings Hf) as (t1 & _ & E).
  assert (Ho : outcome (resolvePandoc h settings) = outcome (searchPandoc h))
    by now rewrite E.
  split; [exact Ho|]. split.
  - intros p prov Hr. rewrite Ho in Hr. apply searchPandoc_found in Hr.
    destruct prov; try exact Hr; destruct Hr as [_ Hr]; congruence.
  - apply resolvePandoc_error.
Qed.

Lemma unexecutable_hint_defers_to_search_witness :
  isAbsolute bareMac "/opt/tool/conv" = true /\
  accessX bareMac "/opt/tool/conv" = false /\
  outcome (resolvePandoc bareMac (withHint "/opt/tool/conv"))
  = outcome (searchPandoc bareMac).
Proof.
  split; [reflexivity|]. split; [reflexivity|].
  apply (unexecutable_hint_defers_to_search bareMac (withHint "/opt/tool/conv"));
    [reflexivity | reflexivity | discriminate].
Defined.

(** ** Resolution: the enumeration of directories comes before the
    mdfind query and the which/where lookup *)









(** ** Resolution: the not-found error *)

(** C7, as stated, fails: with [/opt/tool/conv] configured and nothing
    found on macOS, the error does not mention [/opt/tool/conv]. *)
Lemma not_found_message_omits_hint :
  ~ errorNamesHint bareMac (withHint "/opt/tool/conv").
Proof.
  intros H. specialize (H notFoundMessage eq_refl).
  vm_compute in H. discriminate H.
Qed.

(** C7, amended: when every strategy fails the call fails with one fixed
    text, the same for every configured path and every platform; it asks
    for the full path in the settings and suggests both [which pandoc]
    (Mac/Linux) and [where pandoc] (Windows); the report made from it is
    the tool-not-found one. *)
Theorem not_found_message_fixed (h : Host) (settings : PandocExportSettings)
    (msg : string) :
  outcome (resolvePandoc h settings) = inl msg ->
  msg = notFoundMessage /\
  Js.includes "which pandoc" msg = true /\
  Js.includes "where pandoc" msg = true /\
  classify msg = (ToolNotFound, toolNotFoundText).
Proof.
  intros Ho. apply resolvePandoc_error in Ho. subst msg.
  split; [reflexivity|]. split; [|split]; vm_compute; reflexivity.
Qed.

Lemma not_found_message_fixed_witness :
  outcome (resolvePandoc bareMac (withHint "/opt/tool/conv"))
    = inl notFoundMessage /\
  Js.includes "which pandoc" notFoundMessage = true.
Proof.
  split; [reflexivity|].
  apply (not_found_message_fixed bareMac (withHint "/opt/tool/conv")
           notFoundMessage eq_refl).
Defined.

(** ** [exportFile], step by step *)

Lemma exportBody_run (h : Host) (settings : PandocExportSettings)
    (file : TFile) (format outputPath : string) :
  exportBody h settings file format outputPath =
  let tmp := tempFilePath h file in
  match vaultRead h (path file) with
  | inl msg => ([EvVaultRead (path file)], inl msg)
  | inr content =>
      match writeFileErr h tmp with
      | Some msg => ([EvVaultRead (path file); EvWriteFile tmp content], inl msg)
      | None =>
          let pre := [EvVaultRead (path file); EvWriteFile tmp content]
                     ++ trace (resolvePandoc h settings) in
          match outcome (resolvePandoc h settings) with
          | inl msg => (pre, inl msg)
          | inr (p, _) =>
              let cmd := command h p tmp outputPath (extraArgs settings format) in
              match execResult h cmd (execOptions h) with
              | ExecFail msg => (pre ++ [EvExec cmd (execOptions h)], inl msg)
              | ExecOk _ stderr =>
                  match unlinkErr h tmp with
                  | Some msg =>
                      (pre ++ [EvExec cmd (execOptions h)] ++ warning stderr
                           ++ [EvUnlink tmp], inl msg)
                  | None =>
                      (pre ++ [EvExec cmd (execOptions h)] ++ warning stderr
                           ++ [EvUnlink tmp; EvNotice (successNotice h outputPath)],
                       inr tt)
                  end
              end
          end
      end
  end.
Proof.
  unfold exportBody, readVault, writeFile, execPromise, unlink, Notice, warning.
  cbn zeta.
  destruct (vaultRead h (path file)) as [msg|content]; [reflexivity|].
  destruct (writeFileErr h (tempFilePath h file)) as [msg|]; [reflexivity|].
  destruct (resolvePandoc h settings) as [tr [msg|[p prov]]]; [reflexivity|].
  cbn -[command extraArgs execOptions tempFilePath successNotice].
  destruct (execResult h _ (execOptions h)) as [out err|msg];
    cbn -[command extraArgs execOptions tempFilePath successNotice].
  - destruct (unlinkErr h (tempFilePath h file)) as [msg|];
      destruct (Js.isEmpty err);
      cbn -[command extraArgs execOptions tempFilePath successNotice];
      rewrite <- ?app_assoc; reflexivity.
  - reflexivity.
Qed.

Lemma diagnostics_run (h : Host) : diagnostics h = (diagnosticsTrace h, inr tt).
Proof.
  unfold diagnostics, diagnosticsTrace, fileExists.
  destruct (isWin32 (platform h)); [|reflexivity].
  now destruct (existsSync h "C:\Program Files").
Qed.

Lemma exportFile_run (h : Host) (settings : PandocExportSettings)
    (file : TFile) (format outputPath : string) :
  let body := exportBody h settings file format outputPath in
  exportFile h settings file format outputPath =
  match outcome body with
  | inr _ => (trace body, inr Success)
  | inl message =>
      (trace body ++ diagnosticsTrace h
         ++ [EvNotice (failureNotice (snd (classify message)))],
       inr (fst (classify message)))
  end.
Proof.
  intros body. unfold exportFile. fold body. rewrite diagnostics_run.
  destruct body as [t [message|[]]]; cbn [outcome trace fst snd].
  - unfold catch, bind, ret, Notice, emit. cbn -[classify failureNotice].
    destruct (classify message) as [kind errorMsg].
    cbn -[failureNotice]. now rewrite ?app_nil_r.
  - unfold catch, bind, ret. cbn. now rewrite ?app_nil_r.
Qed.

Lemma exportFile_invokes (h : Host) (settings : PandocExportSettings)
    (file : TFile) (format outputPath content p : string) (prov : Provenance) :
  vaultRead h (path file) = inr content ->
  writeFileErr h (tempFilePath h file) = None ->
  outcome (resolvePandoc h settings) = inr (p, prov) ->
  In (EvExec (command h p (tempFilePath h file) outputPath
                      (extraArgs settings format))
             (execOptions h))
     (trace (exportFile h settings file format outputPath)).
Proof.
  intros Hr Hw Ho.
  pose proof (exportFile_run h settings file format outputPath) as E.
  cbn zeta in E. rewrite E. clear E.
  rewrite exportBody_run. cbn zeta. rewrite Hr, Hw, Ho.
  destruct (execResult h _ (execOptions h)) as [out err|msg];
    [destruct (unlinkErr h (tempFilePath h file))|];
    cbn [outcome trace fst snd];
    repeat (apply in_or_app; first [now (right; left) | left]).
Qed.

(** ** Arguments *)

Lemma append_assoc (a b c : string) :
  ((a ++ b) ++ c = a ++ b ++ c)%string.
Proof. induction a as [|x a IH]; cbn; [reflexivity | now rewrite IH]. Qed.

(** C5: for the format pdf and an engine other than [auto], the extra
    arguments are [--pdf-engine=<engine>], a space, and the custom
    arguments, so they contain the flag; for the engine [auto] they are the
    custom arguments alone, so they contain a [--pdf-engine] flag exactly
    when the custom arguments do. *)
Theorem pdf_engine_flag (settings : PandocExportSettings) (format : string) :
  (format = "pdf" -> pdfEngine settings <> "auto" ->
   extraArgs settings format
     = (("--pdf-engine=" ++ pdfEngine settings) ++ " "
        ++ customArguments settings)%string
   /\ Js.includes ("--pdf-engine=" ++ pdfEngine settings)
                  (extraArgs settings format) = true) /\
  (pdfEngine settings = "auto" ->
   extraArgs settings format = customArguments settings
   /\ Js.includes "--pdf-engine" (extraArgs settings format)
      = Js.includes "--pdf-engine" (customArguments settings)).
Proof.
  unfold extraArgs. split.
  - intros -> Hne. apply String.eqb_neq in Hne.
    rewrite Hne, String.eqb_refl. cbn [andb negb].
    rewrite <- (append_assoc "--pdf-engine=" (pdfEngine settings)).
    split; [reflexivity | apply includes_app_left].
  - intros ->. rewrite String.eqb_refl, andb_false_r. now split.
Qed.

Lemma pdf_engine_flag_witness :
  extraArgs {| pandocPath := "pandoc"; defaultExportDirectory := EmptyString;
               defaultFormat := "pdf"; customArguments := "--toc";
               pdfEngine := "xelatex" |} "pdf"
    = "--pdf-engine=xelatex --toc"
  /\ Js.includes "--pdf-engine" (extraArgs DEFAULT_SETTINGS "pdf") = false.
Proof.
  split.
  - apply (pdf_engine_flag
             {| pandocPath := "pandoc"; defaultExportDirectory := EmptyString;
                defaultFormat := "pdf"; customArguments := "--toc";
                pdfEngine := "xelatex" |} "pdf"); [reflexivity | discriminate].
  - destruct (pdf_engine_flag DEFAULT_SETTINGS "pdf") as [_ H].
    destruct (H eq_refl) as [_ ->]. reflexivity.
Defined.

(** ** The export directory *)

(** C9: with an empty default export directory [getExportDirectory]
    returns the vault path and creates nothing; otherwise the directory,
    joined to the vault path when it is relative, is created (recursive
    mkdir) and returned, and when the creation fails a notice is shown and
    the vault path is returned instead. *)
Theorem export_directory (h : Host) (settings : PandocExportSettings) :
  let configured := defaultExportDirectory settings in
  let dir := if isAbsolute h configured then configured
             else join h (getVaultPath h) configured in
  (configured = EmptyString ->
   getExportDirectory h settings = ([], inr (getVaultPath h))) /\
  (configured <> EmptyString -> mkdirErr h dir = None ->
   getExportDirectory h settings = ([EvMkdir dir], inr dir)) /\
  (configured <> EmptyString -> mkdirErr h dir <> None ->
   getExportDirectory h settings
   = ([EvMkdir dir; EvNotice directoryNotice], inr (getVaultPath h))).
Proof.
  intros configured dir. unfold getExportDirectory. fold configured.
  split; [intros ->; reflexivity|].
  split; intros Hne Hmk; rewrite (isEmpty_false _ Hne); fold dir;
    unfold mkdir.
  - now rewrite Hmk.
  - destruct (mkdirErr h dir) as [msg|]; [reflexivity | contradiction].
Qed.

Lemma export_directory_witness :
  getExportDirectory
    (withMkdirErr linuxHost (fun _ => Some "EACCES: permission denied"))
    {| pandocPath := "pandoc"; defaultExportDirectory := "exports";
       defaultFormat := "pdf"; customArguments := EmptyString;
       pdfEngine := "auto" |}
  = ([EvMkdir "/vault/exports"; EvNotice directoryNotice], inr "/vault").
Proof.
  apply (export_directory
           (withMkdirErr linuxHost (fun _ => Some "EACCES: permission denied"))
           {| pandocPath := "pandoc"; defaultExportDirectory := "exports";
              defaultFormat := "pdf"; customArguments := EmptyString;
              pdfEngine := "auto" |}); discriminate.
Defined.

(** ** The [.exe] retry on Windows *)

(** C10: on Windows, when the configured absolute path has no [.exe]
    suffix and fails the check while the path with [.exe] appended passes,
    the path that is returned, and that is quoted in the command line, is
    the configured one, without the suffix. *)
Theorem exe_retry_keeps_hint (h : Host) (settings : PandocExportSettings)
    (file : TFile) (format outputPath : string) :
  let hint := pandocPath settings in
  let tmp := tempFilePath h file in
  platform h = win32 ->
  hint <> EmptyString -> hint <> "pandoc" ->
  isAbsolute h hint = true ->
  Js.endsWith ".exe" hint = false ->
  accessX h hint = false ->
  accessX h (hint ++ ".exe") = true ->
  resolvePandoc h settings
  = ([EvAccess hint false; EvAccess (hint ++ ".exe") true],
     inr (hint, UserAbsolute)) /\
  (forall content,
      vaultRead h (path file) = inr content ->
      writeFileErr h tmp = None ->
      In (EvExec (Js.dq ++ hint ++ Js.dq ++ " " ++ Js.dq ++ tmp ++ Js.dq
                  ++ " -o " ++ Js.dq ++ outputPath ++ Js.dq ++ " "
                  ++ extraArgs settings format)
                 (execOptions h))
         (trace (exportFile h settings file format outputPath))).
Proof.
  intros hint tmp Hpl Hne Hnd Habs Hsuf Hx Hexe.
  assert (E : resolvePandoc h settings
              = ([EvAccess hint false; EvAccess (hint ++ ".exe") true],
                 inr (hint, UserAbsolute))).
  { pose proof (resolvePandoc_run h settings) as E. cbn zeta in E. rewrite E.
    unfold hintConsidered, hintCandidate, hintProvenance. fold hint.
    apply String.eqb_neq in Hnd.
    rewrite (isEmpty_false _ Hne), Hnd, Habs. cbn [negb andb].
    rewrite accessOrExe_run, Hx, Hpl, Hsuf, Hexe. reflexivity. }
  split; [exact E|]. intros content Hr Hw.
  pose proof (exportFile_invokes h settings file format outputPath content
                hint UserAbsolute Hr Hw) as Hin.
  unfold command in Hin. rewrite Hpl in Hin. cbn [isWin32] in Hin.
  apply Hin. now rewrite E.
Qed.

Lemma exe_retry_keeps_hint_witness :
  resolvePandoc winHost (withHint "C:\tools\pandoc")
  = ([EvAccess "C:\tools\pandoc" false; EvAccess "C:\tools\pandoc.exe" true],
     inr ("C:\tools\pandoc", UserAbsolute)).
Proof.
  apply (exe_retry_keeps_hint winHost (withHint "C:\tools\pandoc") note
           "html" "C:\vault\note.html");
    try reflexivity; discriminate.
Defined.

(** ** The outcome of the invocation *)

Lemma probe_preparatory (t : list Event) :
  forallb isProbe t = true -> forallb preparatory t = true.
Proof. apply forallb_weaken. now intros []. Qed.

Lemma exportBody_invoked (h : Host) (settings : PandocExportSettings)
    (file : TFile) (format outputPath : string) (r : ExecResult) :
  invocation h settings file format outputPath = Some r ->
  exists pre,
    forallb preparatory pre = true /\
    exportBody h settings file format outputPath =
    match r with
    | ExecFail msg => (pre, inl msg)
    | ExecOk _ stderr =>
        match unlinkErr h (tempFilePath h file) with
        | Some msg =>
            (pre ++ warning stderr ++ [EvUnlink (tempFilePath h file)], inl msg)
        | None =>
            (pre ++ warning stderr
                 ++ [EvUnlink (tempFilePath h file);
                     EvNotice (successNotice h outputPath)], inr tt)
        end
    end.
Proof.
  unfold invocation. rewrite exportBody_run. cbn zeta.
  pose proof (resolvePandoc_probes h settings) as Hp.
  destruct (vaultRead h (path file)) as [msg|content]; [discriminate|].
  destruct (writeFileErr h (tempFilePath h file)) as [msg|]; [discriminate|].
  destruct (outcome (resolvePandoc h settings)) as [msg|[p prov]];
    [discriminate|].
  intros [= <-].
  eexists (([EvVaultRead (path file);
             EvWriteFile (tempFilePath h file) content]
            ++ trace (resolvePandoc h settings)) ++ [EvExec _ (execOptions h)]).
  split.
  - rewrite !forallb_app. cbn.
    now rewrite (probe_preparatory _ Hp).
  - destruct (execResult h _ (execOptions h)) as [out err|msg];
      [destruct (unlinkErr h (tempFilePath h file))|];
      rewrite <- ?app_assoc; reflexivity.
Qed.

Lemma unknown_error_plain :
  toolAbsent "未知错误" = false /\ engineAbsent "未知错误" = false.
Proof. split; vm_compute; reflexivity. Qed.

Lemma classify_kind (message : string) :
  fst (classify message) =
  if toolAbsent message then ToolNotFound
  else if engineAbsent message then EngineMissing
  else OtherFailure.
Proof.
  unfold classify. destruct message as [|c message].
  - cbn [Js.isEmpty]. destruct unknown_error_plain as [-> ->]. reflexivity.
  - cbn [Js.isEmpty].
    destruct (toolAbsent (String c message)); [reflexivity|].
    now destruct (engineAbsent (String c message)).
Qed.

(** C6, as stated, fails: with [--pdf-engine=pdflatex] among the custom
    arguments and a run of pandoc that fails in LaTeX, the message names
    pdflatex (it quotes the command line) and the failure is reported as an
    other-failure, not as a missing engine: the indicator for pdflatex is
    the phrase [pdflatex not found]. *)
Lemma engine_name_is_not_enough :
  ~ engineNameDecides latexFailHost pdflatexSettings note "pdf"
      "/vault/note.pdf".
Proof.
  intros H.
  specialize (H _ eq_refl). vm_compute in H. specialize (H eq_refl).
  discriminate H.
Qed.

(** C6, amended: when pandoc exits successfully the invocation is not a
    failure whatever is on standard error, which is only logged as a
    warning when it is not empty, and with the transient file removed the
    export ends with the success notice.  When the invocation fails, the
    message (an empty one counts as the unknown-error text) is tried
    against the indicators in this order: with [command not found],
    [not recognized] or the resolver's own not-found text the report is
    tool-not-found, with its fixed text; otherwise, with
    [pdflatex not found], [xelatex], [wkhtmltopdf] or [weasyprint] it is
    engine-missing, quoting the message; otherwise it is other-failure,
    with the message itself.  The report is the last thing shown. *)
Theorem invocation_outcome (h : Host) (settings : PandocExportSettings)
    (file : TFile) (format outputPath : string) (r : ExecResult) :
  invocation h settings file format outputPath = Some r ->
  let run := exportFile h settings file format outputPath in
  match r with
  | ExecOk _ stderr =>
      (stderr <> EmptyString -> In (EvWarn stderr) (trace run)) /\
      (stderr = EmptyString -> forall w, ~ In (EvWarn w) (trace run)) /\
      (unlinkErr h (tempFilePath h file) = None ->
       outcome run = inr Success /\
       exists t, trace run = t ++ [EvNotice (successNotice h outputPath)])
  | ExecFail message =>
      let errorMsg := if Js.isEmpty message then "未知错误" else message in
      let tool := Js.includes "command not found" errorMsg
                  || Js.includes "not recognized" errorMsg
                  || Js.includes "未找到Pandoc" errorMsg in
      let engine := Js.includes "pdflatex not found" errorMsg
                    || Js.includes "xelatex" errorMsg
                    || Js.includes "wkhtmltopdf" errorMsg
                    || Js.includes "weasyprint" errorMsg in
      outcome run = inr (if tool then ToolNotFound
                         else if engine then EngineMissing
                         else OtherFailure) /\
      exists t,
        trace run
        = t ++ [EvNotice (failureNotice
                            (if tool then toolNotFoundText
                             else if engine then engineMissingText errorMsg
                             else errorMsg))]
  end.
Proof.
  intros Hinv run.
  destruct (exportBody_invoked _ _ _ _ _ _ Hinv) as (pre & Hpre & Hbody).
  pose proof (exportFile_run h settings file format outputPath) as E.
  cbn zeta in E. fold run in E. rewrite Hbody in E. clear Hbody.
  assert (Hnowarn : forall w t, ~ In (EvWarn w) t ->
                                ~ In (EvWarn w) (pre ++ t)).
  { intros w t Ht [Hin|Hin]%in_app_or; [|now apply Ht].
    rewrite forallb_forall in Hpre. now specialize (Hpre _ Hin). }
  assert (Hdiag : forall w, ~ In (EvWarn w) (diagnosticsTrace h)).
  { intros w. unfold diagnosticsTrace.
    destruct (isWin32 (platform h)); [destruct (existsSync h _)|]; cbn;
      intuition discriminate. }
  destruct r as [out err|message].
  - destruct (unlinkErr h (tempFilePath h file)) as [msg|];
      cbn [outcome trace fst snd] in E; rewrite E; cbn [outcome trace fst snd].
    + split; [|split; [|discriminate]].
      * intros Hne. unfold warning. rewrite (isEmpty_false _ Hne).
        apply in_or_app. left. apply in_or_app. right. now left.
      * intros -> w Hin. apply in_app_or in Hin as [Hin|Hin].
        -- revert Hin. apply Hnowarn. cbn. intuition discriminate.
        -- apply in_app_or in Hin as [Hin|Hin]; [now apply (Hdiag w)|].
           cbn in Hin. intuition discriminate.
    + split; [|split].
      * intros Hne. unfold warning. rewrite (isEmpty_false _ Hne).
        apply in_or_app. right. now left.
      * intros -> w. apply Hnowarn. cbn. intuition discriminate.
      * intros _. split; [reflexivity|].
        exists (pre ++ warning err ++ [EvUnlink (tempFilePath h file)]).
        rewrite <- !app_assoc. reflexivity.
  - cbn [outcome trace fst snd] in E. rewrite E. cbn [outcome trace fst snd].
    cbn zeta. unfold classify, toolAbsent, engineAbsent.
    set (errorMsg := if Js.isEmpty message then "未知错误" else message).
    destruct (Js.includes "command not found" errorMsg
              || Js.includes "not recognized" errorMsg
              || Js.includes "未找到Pandoc" errorMsg);
      [|destruct (Js.includes "pdflatex not found" errorMsg
                  || Js.includes "xelatex" errorMsg
                  || Js.includes "wkhtmltopdf" errorMsg
                  || Js.includes "weasyprint" errorMsg)];
      cbn [fst snd]; (split; [reflexivity|]);
      exists (pre ++ diagnosticsTrace h); now rewrite <- app_assoc.
Qed.

Lemma invocation_outcome_witness :
  (invocation spaceMac (withHint "/opt/my tools/pandoc") note "pdf"
              "/vault/note.pdf"
     = Some (ExecOk EmptyString "[WARNING] Missing character") /\
   outcome (exportFile spaceMac (withHint "/opt/my tools/pandoc") note "pdf"
                       "/vault/note.pdf") = inr Success) /\
  (invocation noEngineHost DEFAULT_SETTINGS note "pdf" "/vault/note.pdf"
     = Some (ExecFail "pdflatex not found. Please select a different --pdf-engine or install pdflatex") /\
   outcome (exportFile noEngineHost DEFAULT_SETTINGS note "pdf"
                       "/vault/note.pdf") = inr EngineMissing) /\
  (invocation staleLookupHost DEFAULT_SETTINGS note "pdf" "/vault/note.pdf"
     = Some (ExecFail "/bin/bash: line 1: /snap/bin/pandoc: command not found") /\
   outcome (exportFile staleLookupHost DEFAULT_SETTINGS note "pdf"
                       "/vault/note.pdf") = inr ToolNotFound) /\
  (invocation latexFailHost pdflatexSettings note "pdf" "/vault/note.pdf"
     <> None /\
   outcome (exportFile latexFailHost pdflatexSettings note "pdf"
                       "/vault/note.pdf") = inr OtherFailure).
Proof.
  split; [|split; [|split]].
  - split; [reflexivity|].
    apply (invocation_outcome spaceMac (withHint "/opt/my tools/pandoc") note
             "pdf" "/vault/note.pdf"
             (ExecOk EmptyString "[WARNING] Missing character") eq_refl).
    reflexivity.
  - split; [reflexivity|].
    exact (proj1 (invocation_outcome noEngineHost DEFAULT_SETTINGS note "pdf"
                    "/vault/note.pdf" _ eq_refl)).
  - split; [reflexivity|].
    exact (proj1 (invocation_outcome staleLookupHost DEFAULT_SETTINGS note
                    "pdf" "/vault/note.pdf" _ eq_refl)).
  - split; [discriminate|].
    exact (proj1 (invocation_outcome latexFailHost pdflatexSettings note "pdf"
                    "/vault/note.pdf" _ eq_refl)).
Defined.

(** ** The transient file *)

Lemma preparatory_no_unlink (t : list Event) (p : string) :
  forallb preparatory t = true -> ~ In (EvUnlink p) t.
Proof.
  intros Ht Hin. rewrite forallb_forall in Ht. now specialize (Ht _ Hin).
Qed.

Lemma diagnostics_no_unlink (h : Host) (p : string) :
  ~ In (EvUnlink p) (diagnosticsTrace h).
Proof.
  unfold diagnosticsTrace.
  destruct (isWin32 (platform h)); [destruct (existsSync h _)|]; cbn;
    intuition discriminate.
Qed.

(** The removal of the transient file is attempted only after pandoc
    exited successfully. *)
Lemma unlink_only_after_exit_success (h : Host)
    (settings : PandocExportSettings) (file : TFile)
    (format outputPath p : string) :
  In (EvUnlink p) (trace (exportFile h settings file format outputPath)) ->
  exists out err,
    invocation h settings file format outputPath = Some (ExecOk out err).
Proof.
  pose proof (exportFile_run h settings file format outputPath) as E.
  cbn zeta in E. rewrite E. clear E.
  destruct (invocation h settings file format outputPath) as [r|] eqn:Hinv.
  - destruct r as [out err|msg]; [now exists out, err|].
    destruct (exportBody_invoked _ _ _ _ _ _ Hinv) as (pre & Hpre & ->).
    cbn [outcome trace fst snd]. intros Hin.
    apply in_app_or in Hin as [Hin|Hin];
      [now apply preparatory_no_unlink in Hin|].
    apply in_app_or in Hin as [Hin|Hin];
      [now apply diagnostics_no_unlink in Hin|].
    cbn in Hin. intuition discriminate.
  - unfold invocation in Hinv. rewrite exportBody_run. cbn zeta.
    pose proof (probe_preparatory _ (resolvePandoc_probes h settings)) as Hp.
    destruct (vaultRead h (path file)) as [msg|content].
    + cbn. intros [Hin|Hin]; [discriminate|].
      apply in_app_or in Hin as [Hin|Hin];
        [now apply diagnostics_no_unlink in Hin|].
      cbn in Hin. intuition discriminate.
    + destruct (writeFileErr h (tempFilePath h file)) as [msg|].
      * cbn. intros [Hin|[Hin|Hin]]; try discriminate.
        apply in_app_or in Hin as [Hin|Hin];
          [now apply diagnostics_no_unlink in Hin|].
        cbn in Hin. intuition discriminate.
      * destruct (outcome (resolvePandoc h settings)) as [msg|[q prov]];
          [|discriminate].
        cbn. intros [Hin|[Hin|Hin]]; try discriminate.
        apply in_app_or in Hin as [Hin|Hin];
          [now apply preparatory_no_unlink in Hin|].
        apply in_app_or in Hin as [Hin|Hin];
          [now apply diagnostics_no_unlink in Hin|].
        cbn in Hin. intuition discriminate.
Qed.

(** C2 fails on the code.  On Linux with pandoc in [/usr/bin] and pandoc
    exiting with an error, the transient file is written and its removal is
    never attempted; on macOS with pandoc exiting successfully and the
    removal failing, the export is reported as a failure. *)
Theorem transient_file_left_behind :
  let failed := exportFile linuxHost DEFAULT_SETTINGS note "pdf" "/vault/note.pdf" in
  let busy := withUnlinkErr spaceMac (fun _ => Some "EBUSY: resource busy") in
  let hidden := exportFile busy (withHint "/opt/my tools/pandoc") note "pdf"
                           "/vault/note.pdf" in
  (outcome failed = inr OtherFailure /\
   In (EvWriteFile "/tmp/note-temp.md" "# hello") (trace failed) /\
   (forall p, ~ In (EvUnlink p) (trace failed))) /\
  (invocation busy (withHint "/opt/my tools/pandoc") note "pdf" "/vault/note.pdf"
     = Some (ExecOk EmptyString "[WARNING] Missing character") /\
   In (EvUnlink "/tmp/note-temp.md") (trace hidden) /\
   outcome hidden = inr OtherFailure).
Proof.
  cbn zeta. split; [split; [|split]|split; [|split]].
  - reflexivity.
  - vm_compute. auto.
  - intros p Hin. apply unlink_only_after_exit_success in Hin
      as (out & err & Hinv). discriminate Hinv.
  - reflexivity.
  - vm_compute. auto 10.
  - reflexivity.
Qed.

(** ** The command line *)

Lemma command_windows (h : Host) (pandocPath tmp outputPath args : string) :
  platform h = win32 ->
  command h pandocPath tmp outputPath args
  = (Js.dq ++ pandocPath ++ Js.dq ++ " " ++ Js.dq ++ tmp ++ Js.dq
     ++ " -o " ++ Js.dq ++ outputPath ++ Js.dq ++ " " ++ args)%string
  /\ execOptions h = {| optEnv := Some (env h); optShell := None |}.
Proof. intros Hpl. unfold command, execOptions. now rewrite Hpl. Qed.

Lemma command_elsewhere (h : Host) (pandocPath tmp outputPath args : string) :
  platform h <> win32 ->
  command h pandocPath tmp outputPath args
  = ("/bin/bash -c " ++ Js.dq ++ pandocPath ++ " " ++ Js.sq ++ tmp ++ Js.sq
     ++ " -o " ++ Js.sq ++ outputPath ++ Js.sq ++ " " ++ args ++ Js.dq)%string
  /\ execOptions h = {| optEnv := Some (env h); optShell := Some "/bin/bash" |}.
Proof.
  intros Hpl. unfold command, execOptions.
  now destruct (platform h).
Qed.

(** C8 fails on the code off Windows: the input and the output path are
    single-quoted, the path of the executable is not.  On macOS with
    pandoc at [/opt/my tools/pandoc] the command handed to the shell is
    [/bin/bash -c "/opt/my tools/pandoc '/tmp/note-temp.md' -o
    '/vault/note.pdf' "], in which the executable appears bare. *)
Theorem executable_path_unquoted :
  let run := exportFile spaceMac (withHint "/opt/my tools/pandoc") note "pdf"
                        "/vault/note.pdf" in
  let cmd := ("/bin/bash -c " ++ Js.dq
              ++ "/opt/my tools/pandoc '/tmp/note-temp.md' -o '/vault/note.pdf' "
              ++ Js.dq)%string in
  outcome (resolvePandoc spaceMac (withHint "/opt/my tools/pandoc"))
    = inr ("/opt/my tools/pandoc", UserAbsolute) /\
  In (EvExec cmd {| optEnv := Some (env spaceMac);
                    optShell := Some "/bin/bash" |}) (trace run) /\
  Js.includes "'/opt/my tools/pandoc'" cmd = false /\
  Js.includes "'/tmp/note-temp.md'" cmd = true /\
  Js.includes "'/vault/note.pdf'" cmd = true.
Proof.
  cbn zeta. split; [reflexivity|]. split; [|now vm_compute].
  apply (exportFile_invokes spaceMac (withHint "/opt/my tools/pandoc") note
           "pdf" "/vault/note.pdf" "# hello" "/opt/my tools/pandoc"
           UserAbsolute); reflexivity.
Qed.


(** * Further properties *)

(** ** Traces, compositionally *)

Lemma trace_bind_all {A B} (P : Event -> bool) (m : M A) (k : A -> M B) :
  forallb P (trace m) = true ->
  (forall a, forallb P (trace (k a)) = true) ->
  forallb P (trace (bind m k)) = true.
Proof.
  intros Hm Hk. destruct m as [t [e|a]]; [exact Hm|].
  specialize (Hk a). unfold bind. destruct (k a) as [t' r].
  cbn in *. now rewrite forallb_app, Hm, Hk.
Qed.

Lemma trace_catch_all {A} (P : Event -> bool) (m : M A)
    (handler : string -> M A) :
  forallb P (trace m) = true ->
  (forall e, forallb P (trace (handler e)) = true) ->
  forallb P (trace (catch m handler)) = true.
Proof.
  intros Hm Hk. destruct m as [t [e|a]]; [|exact Hm].
  specialize (Hk e). unfold catch. destruct (handler e) as [t' r].
  cbn in *. now rewrite forallb_app, Hm, Hk.
Qed.

Lemma trace_attempt_all {A} (P : Event -> bool) (m : M A) :
  forallb P (trace m) = true -> forallb P (trace (attempt m)) = true.
Proof. now destruct m as [t [e|a]]. Qed.

Lemma access_shellProbe (h : Host) (p : string) :
  forallb shellProbe (trace (access h p)) = true.
Proof. rewrite access_run. reflexivity. Qed.

Lemma accessOrExe_shellProbe (h : Host) (p : string) :
  forallb shellProbe (trace (accessOrExe h p)) = true.
Proof.
  apply (forallb_weaken isAccess); [now intros []|apply accessOrExe_trace].
Qed.

Lemma shell_exec_shellProbe (h : Host) (cmd sh : string) :
  forallb shellProbe (trace (execPromise h cmd (shellOnly sh))) = true.
Proof.
  unfold execPromise. now destruct (execResult h cmd (shellOnly sh)).
Qed.

Lemma searchDirs_shellProbe (h : Host) (dirs : list string) :
  forallb shellProbe (trace (searchDirs h dirs)) = true.
Proof.
  apply (forallb_weaken isAccess); [now intros []|apply searchDirs_trace].
Qed.

Lemma firstExecutable_shellProbe (h : Host) (paths : list string) :
  forallb shellProbe (trace (firstExecutable h paths)) = true.
Proof.
  apply (forallb_weaken isAccess); [now intros []|apply firstExecutable_trace].
Qed.

Lemma mdfindSearch_shellProbe (h : Host) :
  forallb shellProbe (trace (mdfindSearch h)) = true.
Proof.
  rewrite mdfindSearch_run. cbn. apply firstExecutable_shellProbe.
Qed.

Lemma whichLookup_shellProbe (h : Host) :
  forallb shellProbe (trace (whichLookup h)) = true.
Proof.
  rewrite whichLookup_run. unfold whichOptions. now destruct (platform h).
Qed.

Lemma macCommonPaths_shellProbe (h : Host) (cp : list string) :
  forallb shellProbe (trace (macCommonPaths h cp)) = true.
Proof.
  unfold macCommonPaths. apply trace_catch_all; [|reflexivity].
  apply trace_bind_all; [reflexivity|]. intros present.
  apply trace_bind_all.
  - destruct present; [|reflexivity].
    apply trace_bind_all; [|reflexivity].
    unfold readFile. now destruct (readFileSync h _).
  - intros cp1. apply trace_bind_all; [|reflexivity].
    apply trace_attempt_all, shell_exec_shellProbe.
Qed.

Lemma lastResort_shellProbe (h : Host) :
  forallb shellProbe (trace (lastResort h)) = true.
Proof.
  unfold lastResort. apply trace_bind_all.
  - destruct (isDarwin (platform h)); [apply mdfindSearch_shellProbe|reflexivity].
  - intros [p|]; [reflexivity|].
    apply trace_bind_all; [apply whichLookup_shellProbe|].
    now intros [p|].
Qed.

Lemma searchPandoc_shellProbe (h : Host) :
  forallb shellProbe (trace (searchPandoc h)) = true.
Proof.
  unfold searchPandoc. apply trace_bind_all.
  - destruct (isDarwin (platform h));
      [apply macCommonPaths_shellProbe|reflexivity].
  - intros cp. apply trace_bind_all; [apply searchDirs_shellProbe|].
    intros [p|]; [reflexivity|apply lastResort_shellProbe].
Qed.

Lemma resolvePandoc_shellProbe (h : Host) (settings : PandocExportSettings) :
  forallb shellProbe (trace (resolvePandoc h settings)) = true.
Proof.
  unfold resolvePandoc. apply trace_bind_all.
  - rewrite userHint_run. destruct (hintConsidered _); [|reflexivity].
    apply accessOrExe_shellProbe.
  - intros [found|]; [reflexivity|apply searchPandoc_shellProbe].
Qed.

(** ** What [exportFile] tells the user *)

Lemma classify_not_success (message : string) :
  fst (classify message) <> Success.
Proof.
  rewrite classify_kind.
  destruct (toolAbsent message); [discriminate|].
  destruct (engineAbsent message); discriminate.
Qed.

Lemma shellProbe_silent (t : list Event) :
  forallb shellProbe t = true ->
  forallb (fun e => negb (isNotice e)) t = true.
Proof. apply forallb_weaken. now intros []. Qed.

Lemma diagnostics_silent (h : Host) :
  forallb (fun e => negb (isNotice e)) (diagnosticsTrace h) = true.
Proof.
  unfold diagnosticsTrace.
  destruct (isWin32 (platform h)); [|reflexivity].
  now destruct (existsSync h _).
Qed.

Lemma warning_silent (stderr : string) :
  forallb (fun e => negb (isNotice e)) (warning stderr) = true.
Proof. unfold warning. now destruct (Js.isEmpty stderr). Qed.

(** X1: [exportFile] never rejects and shows exactly one notice, as the
    last thing it does: the success notice when it ends in success, a
    failure notice otherwise. *)
Theorem export_ends_with_one_notice (h : Host)
    (settings : PandocExportSettings) (file : TFile)
    (format outputPath : string) :
  exists t kind text,
    exportFile h settings file format outputPath
      = (t ++ [EvNotice text], inr kind) /\
    forallb (fun e => negb (isNotice e)) t = true /\
    ((kind = Success /\ text = successNotice h outputPath) \/
     (kind <> Success /\ exists errorMsg, text = failureNotice errorMsg)).
Proof.
  pose proof (exportFile_run h settings file format outputPath) as E.
  cbn zeta in E. rewrite E. clear E. rewrite exportBody_run. cbn zeta.
  pose proof (shellProbe_silent _ (resolvePandoc_shellProbe h settings)) as Hr.
  pose proof (diagnostics_silent h) as Hd.
  assert (Hfail : forall tb message,
    forallb (fun e => negb (isNotice e)) tb = true ->
    exists t kind text,
      (tb ++ diagnosticsTrace h
          ++ [EvNotice (failureNotice (snd (classify message)))],
       @inr string Outcome (fst (classify message)))
        = (t ++ [EvNotice text], inr kind) /\
      forallb (fun e => negb (isNotice e)) t = true /\
      ((kind = Success /\ text = successNotice h outputPath) \/
       (kind <> Success /\ exists errorMsg, text = failureNotice errorMsg))).
  { intros tb message Htb.
    exists (tb ++ diagnosticsTrace h), (fst (classify message)),
      (failureNotice (snd (classify message))).
    split; [now rewrite <- app_assoc|]. split.
    - now rewrite forallb_app, Htb, Hd.
    - right. split; [apply classify_not_success | eauto]. }
  destruct (vaultRead h (path file)) as [msg|content];
    [apply Hfail; reflexivity|].
  destruct (writeFileErr h (tempFilePath h file)) as [msg|];
    [apply Hfail; reflexivity|].
  destruct (outcome (resolvePandoc h settings)) as [msg|[p prov]];
    [apply Hfail; cbn; exact Hr|].
  destruct (execResult h _ (execOptions h)) as [out err|msg].
  - destruct (unlinkErr h (tempFilePath h file)) as [msg|].
    + apply Hfail. cbn [trace fst].
      rewrite !forallb_app, Hr, warning_silent. reflexivity.
    + cbn [outcome trace fst snd].
      exists (([EvVaultRead (path file);
                EvWriteFile (tempFilePath h file) content]
               ++ trace (resolvePandoc h settings))
              ++ [EvExec (command h p (tempFilePath h file) outputPath
                                  (extraArgs settings format))
                         (execOptions h)]
              ++ warning err ++ [EvUnlink (tempFilePath h file)]),
        Success, (successNotice h outputPath).
      split; [|split].
      * rewrite <- !app_assoc. reflexivity.
      * rewrite !forallb_app, Hr, warning_silent. reflexivity.
      * left. split; reflexivity.
  - apply Hfail. cbn [trace fst]. rewrite !forallb_app, Hr. reflexivity.
Qed.

(** X2: when the resolution fails, pandoc is not run: the export ends as
    tool-not-found with the fixed not-found report, and every command that
    was run is one of the resolver's own, which are run without the
    forwarded environment. *)
Theorem no_pandoc_without_resolution (h : Host)
    (settings : PandocExportSettings) (file : TFile)
    (format outputPath msg : string) :
  outcome (resolvePandoc h settings) = inl msg ->
  let run := exportFile h settings file format outputPath in
  (forall cmd opts, In (EvExec cmd opts) (trace run) -> optEnv opts = None) /\
  (forall content,
      vaultRead h (path file) = inr content ->
      writeFileErr h (tempFilePath h file) = None ->
      outcome run = inr ToolNotFound /\
      In (EvNotice (failureNotice toolNotFoundText)) (trace run)).
Proof.
  intros Ho run. subst run.
  pose proof (exportFile_run h settings file format outputPath) as E.
  cbn zeta in E. rewrite E. clear E. rewrite exportBody_run. cbn zeta.
  set (P := fun e => match e with
                     | EvExec _ opts =>
                         match optEnv opts with None => true | Some _ => false end
                     | _ => true
                     end).
  assert (Hr : forallb P (trace (resolvePandoc h settings)) = true).
  { apply (forallb_weaken shellProbe); [now intros []|].
    apply resolvePandoc_shellProbe. }
  assert (Hd : forallb P (diagnosticsTrace h) = true).
  { unfold diagnosticsTrace. destruct (isWin32 (platform h)); [|reflexivity].
    now destruct (existsSync h _). }
  apply resolvePandoc_error in Ho as Hmsg. subst msg. rewrite Ho.
  split.
  - intros cmd opts Hin.
    assert (Hall : forallb P
              (trace
                 match vaultRead h (path file) with
                 | inl msg =>
                     ([EvVaultRead (path file)] ++ diagnosticsTrace h
                        ++ [EvNotice (failureNotice (snd (classify msg)))],
                      @inr string Outcome (fst (classify msg)))
                 | inr content =>
                     match writeFileErr h (tempFilePath h file) with
                     | Some msg =>
                         ([EvVaultRead (path file);
                           EvWriteFile (tempFilePath h file) content]
                            ++ diagnosticsTrace h
                            ++ [EvNotice (failureNotice (snd (classify msg)))],
                          inr (fst (classify msg)))
                     | None =>
                         (([EvVaultRead (path file);
                            EvWriteFile (tempFilePath h file) content]
                             ++ trace (resolvePandoc h settings))
                            ++ diagnosticsTrace h
                            ++ [EvNotice (failureNotice
                                            (snd (classify notFoundMessage)))],
                          inr (fst (classify notFoundMessage)))
                     end
                 end) = true).
    { destruct (vaultRead h (path file)) as [m|content];
        [|destruct (writeFileErr h (tempFilePath h file)) as [m|]];
        cbn [trace fst]; rewrite !forallb_app, ?Hr, Hd; reflexivity. }
    rewrite forallb_forall in Hall.
    assert (HP : P (EvExec cmd opts) = true).
    { apply Hall.
      destruct (vaultRead h (path file)) as [m|content];
        [|destruct (writeFileErr h (tempFilePath h file)) as [m|]];
        exact Hin. }
    cbn in HP. now destruct (optEnv opts).
  - intros content Hread Hwrite. rewrite Hread, Hwrite.
    cbn [outcome trace fst snd].
    assert (Hc : classify notFoundMessage = (ToolNotFound, toolNotFoundText))
      by (vm_compute; reflexivity).
    rewrite Hc. cbn [fst snd]. split; [reflexivity|].
    apply in_or_app. right. apply in_or_app. right. now left.
Qed.

Lemma no_pandoc_without_resolution_witness :
  outcome (resolvePandoc bareMac (withHint "/opt/tool/conv"))
    = inl notFoundMessage /\
  outcome (exportFile bareMac (withHint "/opt/tool/conv") note "pdf"
                      "/vault/note.pdf") = inr ToolNotFound.
Proof.
  split; [reflexivity|].
  pose proof (no_pandoc_without_resolution bareMac (withHint "/opt/tool/conv")
                note "pdf" "/vault/note.pdf" notFoundMessage eq_refl) as H.
  cbn zeta in H. destruct H as [_ H].
  exact (proj1 (H "# hello" eq_refl eq_refl)).
Defined.

(** X3: when reading the note or writing the transient file fails,
    nothing is probed and nothing is run; the failure is reported through
    the same indicators as a failure of pandoc, so that a write error that
    names a file called [xelatex-temp.md] is reported as a missing PDF
    engine. *)
Theorem early_failure_reported (h : Host) (settings : PandocExportSettings)
    (file : TFile) (format outputPath : string) :
  (forall msg,
      vaultRead h (path file) = inl msg ->
      exportFile h settings file format outputPath
      = ([EvVaultRead (path file)] ++ diagnosticsTrace h
           ++ [EvNotice (failureNotice (snd (classify msg)))],
         inr (fst (classify msg)))) /\
  (forall content msg,
      vaultRead h (path file) = inr content ->
      writeFileErr h (tempFilePath h file) = Some msg ->
      exportFile h settings file format outputPath
      = ([EvVaultRead (path file); EvWriteFile (tempFilePath h file) content]
           ++ diagnosticsTrace h
           ++ [EvNotice (failureNotice (snd (classify msg)))],
         inr (fst (classify msg)))).
Proof.
  pose proof (exportFile_run h settings file format outputPath) as E.
  cbn zeta in E. rewrite E. clear E. rewrite exportBody_run. cbn zeta.
  split.
  - intros msg ->. reflexivity.
  - intros content msg -> ->. reflexivity.
Qed.

Lemma early_failure_reported_witness :
  writeFileErr fullDisk (tempFilePath fullDisk engineNote)
    = Some ("ENOSPC: no space left on device, open '/tmp/xelatex-temp.md'") /\
  outcome (exportFile fullDisk DEFAULT_SETTINGS engineNote "html"
                      "/vault/xelatex.html") = inr EngineMissing.
Proof.
  split; [reflexivity|].
  destruct (early_failure_reported fullDisk DEFAULT_SETTINGS engineNote "html"
              "/vault/xelatex.html") as [_ H].
  rewrite (H "# hello" _ eq_refl eq_refl). reflexivity.
Defined.

(** ** The order of the later strategies *)

Lemma find_all_false {A} (f : A -> bool) (l : list A) :
  (forall x, f x = false) -> find f l = None.
Proof.
  intros Hf. induction l as [|x l IH]; [reflexivity|].
  cbn. now rewrite Hf.
Qed.

Lemma searchPandoc_with (h : Host) (t0 : list Event) (cp : list string) :
  (if isDarwin (platform h) then macCommonPaths h commonPaths
   else ret commonPaths) = (t0, inr cp) ->
  searchPandoc h =
  match find (holdsPandoc h) (allPaths h cp) with
  | Some d => (t0 ++ trace (searchDirs h (allPaths h cp)),
               inr (exeIn h d, PathSearch))
  | None => (t0 ++ trace (searchDirs h (allPaths h cp)) ++ trace (lastResort h),
             outcome (lastResort h))
  end.
Proof.
  intros E. unfold searchPandoc. rewrite (bind_value _ _ _ _ E).
  pose proof (searchDirs_outcome h (allPaths h cp)) as Ho.
  rewrite (surjective_run (searchDirs h (allPaths h cp))), Ho.
  destruct (find (holdsPandoc h) (allPaths h cp)) as [d|]; cbn [option_map].
  - unfold bind, ret, trace, outcome. cbn. now rewrite !app_nil_r.
  - unfold bind at 1. cbn [trace outcome fst snd].
    rewrite (surjective_run (lastResort h)). cbn [trace outcome fst snd].
    reflexivity.
Qed.

(** X4: on macOS, when the configured path did not settle it and none of
    the directories searched holds an executable pandoc, the first line of
    mdfind's output that passes the check is returned, and the which
    lookup does not run. *)
Theorem mdfind_before_lookup (h : Host) (settings : PandocExportSettings)
    (p : string) :
  platform h = darwin ->
  outcome (userHint h (pandocPath settings)) = inr None ->
  (forall cp, outcome (macCommonPaths h commonPaths) = inr cp ->
              find (holdsPandoc h) (allPaths h cp) = None) ->
  find (accessX h) (mdfindLines h) = Some p ->
  outcome (resolvePandoc h settings) = inr (p, FilesystemSearch) /\
  (forall opts,
      ~ In (EvExec "which pandoc" opts) (trace (resolvePandoc h settings))).
Proof.
  intros Hpl Hf Hnone Hmd. apply userHint_fails in Hf.
  destruct (resolvePandoc_after_hint h settings Hf) as (t1 & Ht1 & E).
  destruct (macCommonPaths_run h commonPaths) as (t0 & extra & E0 & Ht0).
  assert (Es := searchPandoc_with h t0 (commonPaths ++ extra)).
  rewrite Hpl in Es. cbn [isDarwin] in Es. specialize (Es E0).
  rewrite (Hnone (commonPaths ++ extra)) in Es by now rewrite E0.
  rewrite lastResort_run, Hpl in Es. cbn [isDarwin] in Es. rewrite Hmd in Es.
  cbn [outcome trace fst snd] in Es. rewrite E, Es.
  split; [reflexivity|]. intros opts Hin. cbn [trace fst] in Hin.
  set (Q := fun e => match e with
                     | EvExec cmd _ => negb (String.eqb cmd "which pandoc")
                     | _ => true
                     end).
  assert (Hacc : forall t, forallb isAccess t = true -> forallb Q t = true).
  { intros t. apply forallb_weaken. now intros []. }
  assert (HQ : forallb Q (t1 ++ t0
                 ++ trace (searchDirs h (allPaths h (commonPaths ++ extra)))
                 ++ trace (mdfindSearch h)) = true).
  { rewrite !forallb_app, (Hacc _ Ht1), (Hacc _ (searchDirs_trace h _)).
    rewrite (forallb_weaken macEvent Q t0); [| |exact Ht0].
    2:{ intros [] He; try reflexivity.
        cbn in He. apply String.eqb_eq in He. now subst. }
    rewrite mdfindSearch_run. cbn. apply Hacc, firstExecutable_trace. }
  rewrite forallb_forall in HQ. specialize (HQ _ Hin). cbn in HQ. discriminate.
Qed.

Lemma mdfind_before_lookup_witness :
  find (accessX bundleMac) (mdfindLines bundleMac)
    = Some "/Applications/Pandoc.app/Contents/pandoc" /\
  outcome (resolvePandoc bundleMac DEFAULT_SETTINGS)
    = inr ("/Applications/Pandoc.app/Contents/pandoc", FilesystemSearch).
Proof.
  split; [reflexivity|].
  apply (mdfind_before_lookup bundleMac DEFAULT_SETTINGS
           "/Applications/Pandoc.app/Contents/pandoc");
    try reflexivity.
  intros cp [= <-]. reflexivity.
Defined.

Lemma accessOrExe_failed (h : Host) (p : string) (e : string) :
  outcome (accessOrExe h p) = inl e ->
  forallb failedAccess (trace (accessOrExe h p)) = true.
Proof.
  rewrite accessOrExe_run.
  destruct (accessX h p); [discriminate|].
  destruct (isWin32 (platform h) && negb (Js.endsWith ".exe" p));
    [|reflexivity].
  now destruct (accessX h (p ++ ".exe")).
Qed.

Lemma searchDirs_failed (h : Host) (dirs : list string) :
  find (holdsPandoc h) dirs = None ->
  forallb failedAccess (trace (searchDirs h dirs)) = true.
Proof.
  induction dirs as [|d dirs IH]; [reflexivity|].
  rewrite searchDirs_cons. cbn [find]. unfold holdsPandoc at 1.
  fold (exeIn h d).
  destruct (Js.isEmpty d); cbn [negb andb]; [exact IH|].
  destruct (accessX h (exeIn h d)); [discriminate|].
  intros F. cbn. now apply IH.
Qed.

(** X5: off macOS the resolver reads no shell profile and runs no zsh or
    mdfind command.  Either it returns a path after checks only, or every
    check it made failed and it then runs the which/where lookup, once, as
    its last step, whose answer decides the result. *)
Theorem off_mac_probes (h : Host) (settings : PandocExportSettings) :
  platform h <> darwin ->
  let run := resolvePandoc h settings in
  (forallb isAccess (trace run) = true /\
   exists p prov, outcome run = inr (p, prov) /\ prov <> WhichCommand) \/
  (exists t1,
      forallb failedAccess t1 = true /\
      trace run = t1 ++ [EvExec (whichCommand h) (whichOptions h)] /\
      outcome run = match whichAnswer h with
                    | Some p => inr (p, WhichCommand)
                    | None => inl notFoundMessage
                    end).
Proof.
  intros Hpl run. subst run.
  assert (Hd : isDarwin (platform h) = false) by now destruct (platform h).
  assert (Es := searchPandoc_with h [] commonPaths).
  rewrite Hd in Es. specialize (Es eq_refl).
  rewrite lastResort_run, Hd in Es. cbn [app outcome trace fst snd] in Es.
  pose proof (searchDirs_trace h (allPaths h commonPaths)) as Hsd.
  pose proof (searchDirs_failed h (allPaths h commonPaths)) as Hsf.
  pose proof (resolvePandoc_run h settings) as E. cbn zeta in E. rewrite E.
  clear E.
  set (cand := hintCandidate h (pandocPath settings)).
  pose proof (accessOrExe_trace h cand) as Ha.
  pose proof (accessOrExe_failed h cand) as Haf.
  destruct (find (holdsPandoc h) (allPaths h commonPaths)) as [d|] eqn:F.
  - left. destruct (hintConsidered (pandocPath settings)).
    + destruct (outcome (accessOrExe h cand)) as [e|[]].
      * rewrite Es. cbn [outcome trace fst snd].
        rewrite forallb_app, Ha, Hsd. split; [reflexivity|].
        eexists _, _. split; [reflexivity|discriminate].
      * cbn [outcome trace fst snd]. split; [exact Ha|].
        eexists _, _. split; [reflexivity|].
        unfold hintProvenance. destruct (isAbsolute h _); discriminate.
    + rewrite Es. cbn [outcome trace fst snd]. split; [exact Hsd|].
      eexists _, _. split; [reflexivity|discriminate].
  - specialize (Hsf eq_refl).
    destruct (hintConsidered (pandocPath settings)).
    + destruct (outcome (accessOrExe h cand)) as [e|[]] eqn:Ho.
      * right. rewrite Es. cbn [outcome trace fst snd].
        exists (trace (accessOrExe h cand)
                ++ trace (searchDirs h (allPaths h commonPaths))).
        rewrite forallb_app, (Haf e eq_refl), Hsf, <- app_assoc.
        repeat split; reflexivity.
      * left. cbn [outcome trace fst snd]. split; [exact Ha|].
        eexists _, _. split; [reflexivity|].
        unfold hintProvenance. destruct (isAbsolute h _); discriminate.
    + right. rewrite Es. cbn [outcome trace fst snd].
      exists (trace (searchDirs h (allPaths h commonPaths))).
      repeat split; [exact Hsf|reflexivity..].
Qed.

Lemma off_mac_probes_witness :
  trace (resolvePandoc snapHost DEFAULT_SETTINGS)
  = [EvAccess "/usr/bin/pandoc" false;
     EvAccess "C:\Program Files\Pandoc/pandoc" false;
     EvAccess "C:\Pandoc/pandoc" false;
     EvAccess "/usr/local/bin/pandoc" false;
     EvAccess "/opt/homebrew/bin/pandoc" false;
     EvAccess "/opt/local/bin/pandoc" false;
     EvAccess "/usr/local/Homebrew/bin/pandoc" false;
     EvAccess "/opt/bin/pandoc" false]
    ++ [EvExec "which pandoc" (shellOnly "/bin/bash")].
Proof.
  destruct (off_mac_probes snapHost DEFAULT_SETTINGS) as [[_ H]|(t1 & _ & H & _)].
  - discriminate.
  - destruct H as (p & prov & Ho & Hp). exfalso. apply Hp.
    now injection Ho as _ <-.
  - reflexivity.
Defined.

(** ** The candidate directories *)

Lemma arrIncludes_In (x : string) (l : list string) :
  Js.arrIncludes x l = true <-> In x l.
Proof.
  unfold Js.arrIncludes. rewrite existsb_exists. split.
  - intros (y & Hy & He). apply String.eqb_eq in He. now subst.
  - intros Hx. exists x. split; [exact Hx|apply String.eqb_refl].
Qed.

Lemma uniqFrom_In (seen l : list string) (x : string) :
  In x (Js.uniqFrom seen l) <-> In x l /\ ~ In x seen.
Proof.
  revert seen. induction l as [|y l IH]; intros seen; cbn.
  - tauto.
  - destruct (Js.arrIncludes y seen) eqn:Hy.
    + apply arrIncludes_In in Hy. rewrite IH. split.
      * tauto.
      * intros [[->|Hx] Hn]; [contradiction|tauto].
    + assert (Hny : ~ In y seen).
      { intros Hin. apply arrIncludes_In in Hin. congruence. }
      cbn. rewrite IH. cbn. split.
      * intros [->|(Hx & Hn)]; [tauto|]. split; [tauto|]. intros Hs. tauto.
      * intros [[->|Hx] Hn]; [tauto|].
        destruct (string_dec y x) as [->|Hne]; [tauto|]. right.
        split; [exact Hx|]. intros [He|Hs]; [congruence|contradiction].
Qed.

Lemma uniqFrom_NoDup (seen l : list string) : NoDup (Js.uniqFrom seen l).
Proof.
  revert seen. induction l as [|y l IH]; intros seen; cbn; [constructor|].
  destruct (Js.arrIncludes y seen); [apply IH|].
  constructor; [|apply IH].
  rewrite uniqFrom_In. cbn. tauto.
Qed.

(** X6: each directory of PATH and each well-known directory, those of
    the other operating systems included, is a candidate of the
    enumeration, and no directory is a candidate twice. *)
Theorem candidates_complete_and_distinct (h : Host) (cp : list string) :
  NoDup (allPaths h cp) /\
  (forall d, In d (allPaths h cp) <-> In d (pathDirs h) \/ In d cp) /\
  (forall extra d, In d commonPaths -> In d (allPaths h (commonPaths ++ extra))).
Proof.
  unfold allPaths, Js.uniq. split; [apply uniqFrom_NoDup|].
  assert (H : forall l d, In d (Js.uniqFrom [] l) <-> In d l).
  { intros l d. rewrite uniqFrom_In. cbn. tauto. }
  split.
  - intros d. rewrite H. apply in_app_iff.
  - intros extra d Hd. rewrite H. apply in_or_app. right.
    apply in_or_app. now left.
Qed.

Lemma pushNew_keeps (arr dirs : list string) (d : string) :
  In d arr -> In d (Js.pushNew arr dirs).
Proof.
  intros Hd. destruct (pushNew_extends arr dirs) as [extra ->].
  apply in_or_app. now left.
Qed.

Lemma pushNew_adds (arr dirs : list string) (d : string) :
  In d dirs -> In d (Js.pushNew arr dirs).
Proof.
  revert arr. induction dirs as [|x dirs IH]; intros arr; [contradiction|].
  intros [->|Hd].
  - unfold Js.pushNew. cbn [fold_left].
    destruct (Js.arrIncludes d arr) eqn:Hi.
    + apply arrIncludes_In in Hi. now apply pushNew_keeps.
    + apply (pushNew_keeps (arr ++ [d])). apply in_or_app. right. now left.
  - unfold Js.pushNew. cbn [fold_left]. apply IH, Hd.
Qed.

Lemma macCommonPaths_value (h : Host) (cp : list string) :
  existsSync h (join h (homedir h) ".zshrc") = false \/
  readFileSync h (join h (homedir h) ".zshrc") <> None ->
  exists cp2,
    outcome (macCommonPaths h cp) = inr (Js.pushNew cp2 brewM1Paths) /\
    (forall d, In d cp -> In d cp2).
Proof.
  unfold macCommonPaths, fileExists, readFile, execPromise.
  remember (join h (homedir h) ".zshrc") as zshrcPath eqn:Hz. clear Hz.
  intros Hok.
  assert (Hbase : forall base d, In d cp -> In d (cp ++ base))
    by (intros; apply in_or_app; now left).
  destruct (existsSync h zshrcPath).
  - destruct (readFileSync h zshrcPath) as [zshrc|];
      [|destruct Hok as [Hok|Hok]; [discriminate|contradiction]].
    destruct (execResult h "echo $PATH" (shellOnly "/bin/zsh")) as [out err|msg].
    + destruct (Js.isEmpty (Js.trim out)) eqn:Hout.
      * exists (cp ++ zshrcPaths zshrc).
        cbn -[Js.pushNew zshrcPaths brewM1Paths Js.split Js.trim Js.isEmpty].
        rewrite Hout. split; [reflexivity|apply Hbase].
      * eexists (Js.pushNew (cp ++ zshrcPaths zshrc) _).
        cbn -[Js.pushNew zshrcPaths brewM1Paths Js.split Js.trim Js.isEmpty].
        rewrite Hout. split; [reflexivity|].
        intros d Hd. apply pushNew_keeps, Hbase, Hd.
    + exists (cp ++ zshrcPaths zshrc).
      cbn -[Js.pushNew zshrcPaths brewM1Paths Js.split Js.trim Js.isEmpty].
      split; [reflexivity|apply Hbase].
  - destruct (execResult h "echo $PATH" (shellOnly "/bin/zsh")) as [out err|msg].
    + destruct (Js.isEmpty (Js.trim out)) eqn:Hout.
      * exists cp.
        cbn -[Js.pushNew zshrcPaths brewM1Paths Js.split Js.trim Js.isEmpty].
        rewrite Hout. split; [reflexivity|auto].
      * eexists (Js.pushNew cp _).
        cbn -[Js.pushNew zshrcPaths brewM1Paths Js.split Js.trim Js.isEmpty].
        rewrite Hout. split; [reflexivity|].
        intros d Hd. apply pushNew_keeps, Hd.
    + exists cp.
      cbn -[Js.pushNew zshrcPaths brewM1Paths Js.split Js.trim Js.isEmpty].
      split; [reflexivity|auto].
Qed.

(** X7: on macOS, when the shell profile is absent or readable, the
    well-known directories grow by the three Apple-silicon Homebrew
    directories (and keep what they had); when the profile exists but
    cannot be read, the macOS block stops there: the zsh search path is not
    asked for and nothing is added, not even those three directories. *)
Theorem mac_paths_unless_profile_unreadable (h : Host) (cp : list string) :
  let zshrcPath := join h (homedir h) ".zshrc" in
  (existsSync h zshrcPath = true -> readFileSync h zshrcPath = None ->
   macCommonPaths h cp = ([EvExists zshrcPath; EvReadFile zshrcPath], inr cp)) /\
  (existsSync h zshrcPath = false \/ readFileSync h zshrcPath <> None ->
   exists cp', outcome (macCommonPaths h cp) = inr cp' /\
               (forall d, In d cp -> In d cp') /\
               (forall d, In d brewM1Paths -> In d cp')).
Proof.
  intros zshrcPath. split.
  - intros Hex Hrd. unfold macCommonPaths, fileExists, readFile.
    fold zshrcPath. rewrite Hex. cbn. rewrite Hrd. reflexivity.
  - intros Hok. destruct (macCommonPaths_value h cp Hok) as (cp2 & E & Hin).
    exists (Js.pushNew cp2 brewM1Paths). split; [exact E|]. split.
    + intros d Hd. apply pushNew_keeps, Hin, Hd.
    + intros d Hd. now apply pushNew_adds.
Qed.

Lemma mac_paths_unless_profile_unreadable_witness :
  macCommonPaths lockedProfileMac commonPaths
  = ([EvExists "/home/u/.zshrc"; EvReadFile "/home/u/.zshrc"], inr commonPaths)
  /\ exists cp', outcome (macCommonPaths bareMac commonPaths) = inr cp' /\
                 In "/opt/homebrew/opt/pandoc/bin" cp'.
Proof.
  split.
  - apply (mac_paths_unless_profile_unreadable lockedProfileMac commonPaths);
      reflexivity.
  - destruct (mac_paths_unless_profile_unreadable bareMac commonPaths)
      as [_ H].
    destruct H as (cp' & E & _ & Hb); [left; reflexivity|].
    exists cp'. split; [exact E|]. apply Hb. cbn. auto.
Defined.

(** ** What is scraped from the shell profile *)

Lemma span_keeps (keep : ascii -> bool) (s : string) :
  anyChar (fun c => negb (keep c)) (fst (span keep s)) = false.
Proof.
  induction s as [|c s IH]; [reflexivity|].
  cbn. destruct (keep c) eqn:Hk; [|reflexivity].
  destruct (span keep s) as [a b]. cbn in *. now rewrite Hk.
Qed.

Lemma matchExportPath_group (s group : string) :
  matchExportPath s = Some group ->
  group <> EmptyString /\ anyChar isColon group = false.
Proof.
  unfold matchExportPath.
  destruct (stripPrefix "export" s) as [s1|]; [|discriminate].
  destruct (negb (Js.spaceAhead s1)); [discriminate|].
  destruct (stripPrefix "PATH=" (Js.trimStart s1)) as [s3|]; [|discriminate].
  pose proof (span_keeps (fun c => negb (isColon c)) s3) as Hk.
  destruct (span (fun c => negb (isColon c)) s3) as [g rest]. cbn in Hk.
  destruct (Js.isEmpty g) eqn:Hg; [discriminate|].
  intros [= <-]. split.
  - intros ->. discriminate Hg.
  - rewrite <- Hk. clear. induction g as [|c g IH]; [reflexivity|].
    cbn. now rewrite negb_involutive, IH.
Qed.

Lemma exportPathGroups_groups (skipping : bool) (s group : string) :
  In group (exportPathGroups skipping s) ->
  group <> EmptyString /\ anyChar isColon group = false.
Proof.
  revert skipping. induction s as [|c s IH]; intros skipping; [contradiction|].
  cbn [exportPathGroups]. destruct skipping; [apply IH|].
  destruct (matchExportPath (String c s)) as [g|] eqn:Hm; [|apply IH].
  intros [<-|Hin]; [now apply matchExportPath_group in Hm|].
  now apply IH in Hin.
Qed.

Lemma filterChars_removes (keep : ascii -> bool) (s : string) :
  anyChar (fun c => negb (keep c)) (Js.filterChars keep s) = false.
Proof.
  induction s as [|c s IH]; [reflexivity|].
  cbn. destruct (keep c) eqn:Hk; [|exact IH]. cbn. now rewrite Hk.
Qed.

Lemma filterChars_preserves (f keep : ascii -> bool) (s : string) :
  anyChar f s = false -> anyChar f (Js.filterChars keep s) = false.
Proof.
  induction s as [|c s IH]; [reflexivity|].
  cbn. intros [Hc Hs]%orb_false_elim.
  destruct (keep c); [cbn; rewrite Hc|]; now apply IH.
Qed.

(** X8: a directory taken from the shell profile is never empty, holds
    neither a colon nor a quote, and mentions homebrew, opt or bin.  Only
    what stands between [PATH=] and the first colon of an [export] line is
    looked at, so that [export PATH=$PATH:/opt/homebrew/bin] gives
    nothing. *)
Theorem zshrc_paths_clean (zshrc p : string) :
  In p (zshrcPaths zshrc) ->
  p <> EmptyString /\
  anyChar isColon p = false /\
  anyChar isQuote p = false /\
  (Js.includes "homebrew" p || Js.includes "opt" p || Js.includes "bin" p) = true.
Proof.
  unfold zshrcPaths. rewrite filter_In, in_map_iff.
  intros [(g & <- & Hg) Hkeep].
  apply exportPathGroups_groups in Hg as [_ Hcolon].
  apply andb_prop in Hkeep as [Hne Hword].
  split; [|split; [|split]].
  - intros He. rewrite He in Hne. discriminate Hne.
  - now apply filterChars_preserves.
  - rewrite <- (filterChars_removes (fun c => negb (isQuote c)) g).
    generalize (Js.filterChars (fun c => negb (isQuote c)) g). intros s.
    induction s as [|c s IH]; [reflexivity|].
    cbn. now rewrite negb_involutive, IH.
  - exact Hword.
Qed.

Lemma zshrc_paths_clean_witness :
  zshrcPaths ("export PATH=" ++ Js.dq ++ "/opt/pandoc/bin:$PATH" ++ Js.dq
              ++ Js.nl ++ "export PATH=$PATH:/opt/homebrew/bin" ++ Js.nl)
    = ["/opt/pandoc/bin"] /\
  anyChar isQuote "/opt/pandoc/bin" = false.
Proof.
  split; [reflexivity|].
  apply (zshrc_paths_clean
           ("export PATH=" ++ Js.dq ++ "/opt/pandoc/bin:$PATH" ++ Js.dq
            ++ Js.nl ++ "export PATH=$PATH:/opt/homebrew/bin" ++ Js.nl)
           "/opt/pandoc/bin").
  vm_compute. left. reflexivity.
Defined.

(** ** The answer of the which/where lookup *)

Lemma string_strong_ind (P : string -> Prop) :
  (forall s, (forall t, String.length t < String.length s -> P t) -> P s) ->
  forall s, P s.
Proof.
  intros Hstep.
  assert (H : forall n s, String.length s < n -> P s).
  { induction n as [|n IH]; intros s Hs; [lia|].
    apply Hstep. intros t Ht. apply IH. lia. }
  intros s. apply (H (S (String.length s))). lia.
Qed.

Lemma append_empty_r (s : string) : (s ++ EmptyString)%string = s.
Proof. induction s as [|c s IH]; [reflexivity|]. cbn. now rewrite IH. Qed.

Lemma anyChar_app (f : ascii -> bool) (a b : string) :
  anyChar f (a ++ b) = anyChar f a || anyChar f b.
Proof.
  induction a as [|c a IH]; [reflexivity|].
  cbn. now rewrite IH, orb_assoc.
Qed.

Lemma trimStart_cons (a : ascii) (r1 : string) :
  Js.trimStart (String a r1) =
  if Js.isSpace a then Js.trimStart r1
  else match r1 with
       | EmptyString => String a r1
       | String b r2 =>
           if Js.isSpace2 a b then Js.trimStart r2
           else match r2 with
                | EmptyString => String a r1
                | String c r3 =>
                    if Js.isSpace3 a b c then Js.trimStart r3 else String a r1
                end
       end.
Proof. reflexivity. Qed.

Lemma allSpace_cons (a : ascii) (r1 : string) :
  Js.allSpace (String a r1) =
  if Js.isSpace a then Js.allSpace r1
  else match r1 with
       | EmptyString => false
       | String b r2 =>
           if Js.isSpace2 a b then Js.allSpace r2
           else match r2 with
                | EmptyString => false
                | String c r3 => Js.isSpace3 a b c && Js.allSpace r3
                end
       end.
Proof. reflexivity. Qed.

Lemma trimStart_suffix (s : string) :
  exists pre, s = (pre ++ Js.trimStart s)%string.
Proof.
  induction s as [s IH] using string_strong_ind.
  assert (Hself : forall x : string, exists pre, x = (pre ++ x)%string)
    by (intros x; now exists EmptyString).
  assert (Hstep : forall pre0 t,
             String.length t < String.length (pre0 ++ t) ->
             (forall u, String.length u < String.length (pre0 ++ t) ->
                        exists pre, u = (pre ++ Js.trimStart u)%string) ->
             exists pre, (pre0 ++ t)%string = (pre ++ Js.trimStart t)%string).
  { intros pre0 t Hlen IH'. destruct (IH' t Hlen) as [pre Hp].
    exists (pre0 ++ pre)%string. rewrite append_assoc. now rewrite <- Hp. }
  destruct s as [|a r1]; [apply Hself|].
  rewrite trimStart_cons.
  destruct (Js.isSpace a).
  { apply (Hstep (String a EmptyString) r1); [cbn; lia|exact IH]. }
  destruct r1 as [|b r2]; [apply Hself|].
  destruct (Js.isSpace2 a b).
  { apply (Hstep (String a (String b EmptyString)) r2); [cbn; lia|exact IH]. }
  destruct r2 as [|c r3]; [apply Hself|].
  destruct (Js.isSpace3 a b c); [|apply Hself].
  apply (Hstep (String a (String b (String c EmptyString))) r3);
    [cbn; lia|exact IH].
Qed.

Lemma trimStart_spaceAhead (s : string) : Js.spaceAhead (Js.trimStart s) = false.
Proof.
  induction s as [s IH] using string_strong_ind.
  destruct s as [|a r1]; [reflexivity|].
  rewrite trimStart_cons.
  destruct (Js.isSpace a) eqn:Ha; [apply IH; cbn; lia|].
  destruct r1 as [|b r2]; [cbn; now rewrite Ha|].
  destruct (Js.isSpace2 a b) eqn:Hab; [apply IH; cbn; lia|].
  destruct r2 as [|c r3]; [cbn; now rewrite Ha, Hab|].
  destruct (Js.isSpace3 a b c) eqn:Habc; [apply IH; cbn; lia|].
  cbn. now rewrite Ha, Hab, Habc.
Qed.

Lemma trimStart_fixed (s : string) :
  Js.spaceAhead s = false -> Js.trimStart s = s.
Proof.
  destruct s as [|a r1]; [reflexivity|].
  rewrite trimStart_cons. unfold Js.spaceAhead.
  destruct (Js.isSpace a); [discriminate|]. cbn [orb].
  destruct r1 as [|b r2]; [reflexivity|].
  destruct (Js.isSpace2 a b); [discriminate|]. cbn [orb].
  destruct r2 as [|c r3]; [reflexivity|].
  now intros ->.
Qed.

Lemma allSpace_spaceAhead (s : string) :
  s <> EmptyString -> Js.allSpace s = true -> Js.spaceAhead s = true.
Proof.
  destruct s as [|a r1]; [congruence|]. intros _.
  rewrite allSpace_cons. unfold Js.spaceAhead.
  destruct (Js.isSpace a); [reflexivity|]. cbn [orb].
  destruct r1 as [|b r2]; [discriminate|].
  destruct (Js.isSpace2 a b); [reflexivity|]. cbn [orb].
  destruct r2 as [|c r3]; [discriminate|].
  now intros [-> _]%andb_prop.
Qed.

(** White space at the start of a string is there in every string that
    starts like it for three bytes at least. *)
Lemma spaceAhead_prefix (pre post : string) :
  Js.spaceAhead pre = true -> Js.spaceAhead (pre ++ post) = true.
Proof.
  destruct pre as [|a [|b [|c r3]]]; [discriminate|..];
    unfold Js.spaceAhead; cbn [append].
  - rewrite orb_false_r. now intros ->.
  - destruct (Js.isSpace a); [reflexivity|]. cbn [orb].
    rewrite orb_false_r. now intros ->.
  - intros H. exact H.
Qed.

Lemma trimEnd_prefix (s : string) :
  exists post, s = (Js.trimEnd s ++ post)%string /\ Js.allSpace post = true.
Proof.
  induction s as [|c s IH].
  - now exists EmptyString.
  - cbn [Js.trimEnd]. destruct (Js.allSpace (String c s)) eqn:Hall.
    + now exists (String c s).
    + destruct IH as (post & Hs & Hp). exists post. split; [|exact Hp].
      cbn. now rewrite <- Hs.
Qed.

Lemma trimEnd_preserves (f : ascii -> bool) (s : string) :
  anyChar f s = false -> anyChar f (Js.trimEnd s) = false.
Proof.
  destruct (trimEnd_prefix s) as (post & Hs & _).
  rewrite Hs at 1. rewrite anyChar_app. now intros [H _]%orb_false_elim.
Qed.

Lemma trimStart_preserves (f : ascii -> bool) (s : string) :
  anyChar f s = false -> anyChar f (Js.trimStart s) = false.
Proof.
  destruct (trimStart_suffix s) as [pre Hs].
  rewrite Hs at 1. rewrite anyChar_app. now intros [_ H]%orb_false_elim.
Qed.

Lemma trimEnd_spaceAhead (s : string) :
  Js.spaceAhead s = false -> Js.spaceAhead (Js.trimEnd s) = false.
Proof.
  intros Hs. destruct (Js.spaceAhead (Js.trimEnd s)) eqn:Ht; [|reflexivity].
  destruct (trimEnd_prefix s) as (post & Hp & _).
  rewrite Hp, (spaceAhead_prefix _ post Ht) in Hs. discriminate Hs.
Qed.

Lemma trimEnd_nonempty (s : string) :
  s <> EmptyString -> Js.spaceAhead s = false -> Js.trimEnd s <> EmptyString.
Proof.
  intros Hne Hs. destruct s as [|c s]; [congruence|].
  cbn [Js.trimEnd]. destruct (Js.allSpace (String c s)) eqn:Hall; [|discriminate].
  rewrite (allSpace_spaceAhead _ Hne Hall) in Hs. discriminate Hs.
Qed.

Lemma trim_clean (s : string) :
  Js.spaceAhead (Js.trim s) = false /\
  (Js.trim s = EmptyString \/ Js.trimStart s <> EmptyString).
Proof.
  unfold Js.trim. split.
  - apply trimEnd_spaceAhead, trimStart_spaceAhead.
  - destruct (Js.trimStart s); [now left|right; discriminate].
Qed.

Lemma split_pieces (sep : ascii) (s : string) :
  Forall (fun x => anyChar (fun c => Ascii.eqb c sep) x = false)
         (Js.split sep s).
Proof.
  induction s as [|c s IH]; [repeat constructor|].
  cbn. destruct (Ascii.eqb c sep) eqn:Hc.
  - constructor; [reflexivity | exact IH].
  - destruct (Js.split sep s) as [|x t]; [repeat constructor; cbn; now rewrite Hc|].
    inversion IH as [|? ? Hx Ht]; subst.
    constructor; [cbn; now rewrite Hc, Hx | exact Ht].
Qed.

(** The first piece of [s] is [s] up to its first separator. *)
Lemma split_head_prefix (sep : ascii) (s : string) :
  exists post, s = (hd EmptyString (Js.split sep s) ++ post)%string /\
               (hd EmptyString (Js.split sep s) = EmptyString ->
                s = EmptyString \/ exists r, s = String sep r).
Proof.
  induction s as [|c s IH].
  - exists EmptyString. split; [reflexivity|now left].
  - cbn [Js.split]. destruct (Ascii.eqb c sep) eqn:Hc.
    + apply Ascii.eqb_eq in Hc. subst c. exists (String sep s).
      split; [reflexivity|]. right. now exists s.
    + destruct IH as (post & Hs & _).
      destruct (Js.split sep s) as [|x t].
      * exists s. cbn. split; [reflexivity|discriminate].
      * exists post. cbn in *. split; [now rewrite <- Hs|discriminate].
Qed.

Lemma spaceAhead_false_prefix (pre post : string) :
  Js.spaceAhead (pre ++ post) = false -> Js.spaceAhead pre = false.
Proof.
  intros H. destruct (Js.spaceAhead pre) eqn:Hp; [|reflexivity].
  now rewrite (spaceAhead_prefix _ post Hp) in H.
Qed.

Lemma trimEnd_idempotent (s : string) :
  Js.trimEnd (Js.trimEnd s) = Js.trimEnd s.
Proof.
  induction s as [|c s IH]; [reflexivity|].
  cbn [Js.trimEnd]. destruct (Js.allSpace (String c s)) eqn:Hall;
    [reflexivity|].
  cbn [Js.trimEnd]. rewrite IH.
  destruct (Js.allSpace (String c (Js.trimEnd s))) eqn:Hall'; [|reflexivity].
  exfalso.
  destruct (trimEnd_prefix s) as (post & Hs & Hp).
  assert (Happ : forall u v, Js.allSpace u = true -> Js.allSpace v = true ->
                             Js.allSpace (u ++ v) = true).
  { clear. intros u. induction u as [u IHu] using string_strong_ind.
    intros v Hu Hv.
    destruct u as [|a r1]; [exact Hv|].
    cbn [append]. rewrite allSpace_cons in Hu |- *.
    destruct (Js.isSpace a); [apply IHu; [cbn; lia|exact Hu|exact Hv]|].
    destruct r1 as [|b r2]; [discriminate|]. cbn [append].
    destruct (Js.isSpace2 a b); [apply IHu; [cbn; lia|exact Hu|exact Hv]|].
    destruct r2 as [|c r3]; [discriminate|]. cbn [append].
    apply andb_prop in Hu as [-> Hu]. cbn [andb].
    apply IHu; [cbn; lia|exact Hu|exact Hv]. }
  specialize (Happ _ _ Hall' Hp). cbn [append] in Happ.
  rewrite <- Hs in Happ. congruence.
Qed.

Lemma first_line_wellformed (stdout : string) :
  Js.isEmpty (Js.trim stdout) = false ->
  let p := Js.trim (hd EmptyString
                       (Js.split (ascii_of_nat 10) (Js.trim stdout))) in
  p <> EmptyString /\ Js.trim p = p /\ Js.spaceAhead p = false /\
  anyChar isNewline p = false.
Proof.
  intros Hne p.
  set (line := hd EmptyString (Js.split (ascii_of_nat 10) (Js.trim stdout))) in *.
  destruct (trim_clean stdout) as [Hclean _].
  destruct (split_head_prefix (ascii_of_nat 10) (Js.trim stdout))
    as (post & Hsplit & Hempty). fold line in Hsplit, Hempty.
  assert (Hline : Js.spaceAhead line = false).
  { apply (spaceAhead_false_prefix line post). now rewrite <- Hsplit. }
  assert (Hlne : line <> EmptyString).
  { intros He. destruct (Hempty He) as [H0|[r Hr]].
    - rewrite H0 in Hne. discriminate Hne.
    - rewrite Hr in Hclean. discriminate Hclean. }
  assert (Hp : p = Js.trimEnd line).
  { subst p. unfold Js.trim. now rewrite (trimStart_fixed _ Hline). }
  assert (Hsp : Js.spaceAhead p = false).
  { rewrite Hp. now apply trimEnd_spaceAhead. }
  split; [|split; [|split]].
  - rewrite Hp. now apply trimEnd_nonempty.
  - unfold Js.trim at 1. rewrite (trimStart_fixed _ Hsp), Hp.
    apply trimEnd_idempotent.
  - exact Hsp.
  - rewrite Hp. apply trimEnd_preserves.
    pose proof (split_pieces (ascii_of_nat 10) (Js.trim stdout)) as Hall.
    unfold line. destruct (Js.split (ascii_of_nat 10) (Js.trim stdout));
      [reflexivity|].
    now inversion Hall.
Qed.

Lemma resolvePandoc_which (h : Host) (settings : PandocExportSettings)
    (p : string) :
  outcome (resolvePandoc h settings) = inr (p, WhichCommand) ->
  whichAnswer h = Some p.
Proof.
  pose proof (resolvePandoc_run h settings) as E. cbn zeta in E. rewrite E.
  destruct (hintConsidered (pandocPath settings)).
  - destruct (outcome (accessOrExe h _)); cbn [outcome snd].
    + intros Ho. now apply searchPandoc_found in Ho.
    + unfold hintProvenance. destruct (isAbsolute h _); discriminate.
  - intros Ho. now apply searchPandoc_found in Ho.
Qed.

(** X9: a path taken from the which/where lookup is not empty, has no
    white space at either end ([trim] leaves it as it is; the white space
    is that of JavaScript, a no-break space included) and holds no line
    break: it is the first line of the output, trimmed (a carriage return
    before the line break goes too). *)
Theorem lookup_path_wellformed (h : Host) (settings : PandocExportSettings)
    (p : string) :
  outcome (resolvePandoc h settings) = inr (p, WhichCommand) ->
  p <> EmptyString /\ Js.trim p = p /\ Js.spaceAhead p = false /\
  anyChar isNewline p = false.
Proof.
  intros Ho. apply resolvePandoc_which in Ho. unfold whichAnswer in Ho.
  destruct (execResult h (whichCommand h) (whichOptions h)) as [out err|msg];
    [|discriminate].
  destruct (Js.isEmpty (Js.trim out)) eqn:Hne; [discriminate|].
  injection Ho as <-. now apply first_line_wellformed.
Qed.

Lemma lookup_path_wellformed_witness :
  outcome (resolvePandoc snapHost DEFAULT_SETTINGS)
    = inr ("/snap/bin/pandoc", WhichCommand) /\
  anyChar isNewline "/snap/bin/pandoc" = false.
Proof.
  split; [reflexivity|].
  apply (lookup_path_wellformed snapHost DEFAULT_SETTINGS "/snap/bin/pandoc"
           eq_refl).
Defined.

(** ** A relative configured path *)

(** X10: a configured path that is neither absolute nor the default name
    is joined to the working directory of the process; when the joined
    path passes the check, that is the only probe made, the joined path is
    returned and it is the one placed in the command line. *)
Theorem relative_hint_joined_to_cwd (h : Host) (settings : PandocExportSettings)
    (file : TFile) (format outputPath : string) :
  let hint := pandocPath settings in
  let p := join h (cwd h) hint in
  hint <> EmptyString -> hint <> "pandoc" ->
  isAbsolute h hint = false ->
  accessX h p = true ->
  resolvePandoc h settings = ([EvAccess p true], inr (p, UserRelative)) /\
  (forall content,
      vaultRead h (path file) = inr content ->
      writeFileErr h (tempFilePath h file) = None ->
      In (EvExec (command h p (tempFilePath h file) outputPath
                          (extraArgs settings format))
                 (execOptions h))
         (trace (exportFile h settings file format outputPath))).
Proof.
  intros hint p Hne Hnd Hrel Hx.
  assert (E : resolvePandoc h settings
              = ([EvAccess p true], inr (p, UserRelative))).
  { pose proof (resolvePandoc_run h settings) as E. cbn zeta in E. rewrite E.
    unfold hintConsidered, hintCandidate, hintProvenance. fold hint.
    apply String.eqb_neq in Hnd.
    rewrite (isEmpty_false _ Hne), Hnd, Hrel. cbn [negb andb]. fold p.
    rewrite accessOrExe_run, Hx. reflexivity. }
  split; [exact E|]. intros content Hr Hw.
  apply (exportFile_invokes h settings file format outputPath content p
           UserRelative Hr Hw).
  now rewrite E.
Qed.

Lemma relative_hint_joined_to_cwd_witness :
  resolvePandoc localToolHost (withHint "tools/pandoc")
  = ([EvAccess "/home/u/tools/pandoc" true],
     inr ("/home/u/tools/pandoc", UserRelative)).
Proof.
  refine (proj1 (relative_hint_joined_to_cwd localToolHost
                   (withHint "tools/pandoc") note "pdf" "/vault/note.pdf"
                   _ _ eq_refl eq_refl)); discriminate.
Defined.

(** ** The loop over the candidate directories *)

Lemma searchDirs_app_hit (h : Host) (dirs1 dirs2 : list string) (d : string) :
  find (holdsPandoc h) dirs1 = None ->
  holdsPandoc h d = true ->
  searchDirs h (dirs1 ++ d :: dirs2)
  = (trace (searchDirs h dirs1) ++ [EvAccess (exeIn h d) true],
     inr (Some (exeIn h d))).
Proof.
  intros Hnone Hd. induction dirs1 as [|x dirs1 IH].
  - cbn [app]. rewrite searchDirs_cons. unfold holdsPandoc in Hd.
    fold (exeIn h d) in Hd. apply andb_prop in Hd as [He Hx].
    apply negb_true_iff in He. now rewrite He, Hx.
  - cbn [app]. rewrite !searchDirs_cons. cbn [find] in Hnone.
    unfold holdsPandoc at 1 in Hnone. fold (exeIn h x) in Hnone.
    destruct (Js.isEmpty x); cbn [negb andb] in Hnone; [now apply IH|].
    destruct (accessX h (exeIn h x)); [discriminate|].
    rewrite (IH Hnone). reflexivity.
Qed.

Lemma searchDirs_events (h : Host) (dirs : list string) (p : string)
    (ok : bool) :
  In (EvAccess p ok) (trace (searchDirs h dirs)) ->
  exists d, In d dirs /\ d <> EmptyString /\ p = exeIn h d /\ ok = accessX h p.
Proof.
  induction dirs as [|x dirs IH]; [contradiction|].
  rewrite searchDirs_cons.
  assert (Hrest : In (EvAccess p ok) (trace (searchDirs h dirs)) ->
                  exists d, In d (x :: dirs) /\ d <> EmptyString /\
                            p = exeIn h d /\ ok = accessX h p).
  { intros Hin. destruct (IH Hin) as (d & Hd & Hrest).
    exists d. split; [now right|exact Hrest]. }
  destruct (Js.isEmpty x) eqn:He; [exact Hrest|].
  assert (Hx : x <> EmptyString) by (intros ->; discriminate He).
  destruct (accessX h (exeIn h x)) eqn:Hacc; cbn.
  - intros [[= <- <-]|[]]. exists x. repeat split; auto.
  - intros [[= <- <-]|Hin]; [|now apply Hrest].
    exists x. repeat split; auto.
Qed.

(** X11: the loop over the candidate directories checks only
    [join(d, pandoc)] ([pandoc.exe] on Windows) for candidates [d] that are
    not empty, so an empty entry of PATH is never probed; a failed check
    only moves on to the next candidate, and after the first check that
    passes no further directory is probed. *)
Theorem enumeration_stops_at_first_hit (h : Host) (dirs1 dirs2 : list string)
    (d : string) :
  (forall dirs p ok,
      In (EvAccess p ok) (trace (searchDirs h dirs)) ->
      exists c, In c dirs /\ c <> EmptyString /\ p = exeIn h c /\
                ok = accessX h p) /\
  (find (holdsPandoc h) dirs1 = None ->
   holdsPandoc h d = true ->
   forallb failedAccess (trace (searchDirs h dirs1)) = true /\
   searchDirs h (dirs1 ++ d :: dirs2)
   = (trace (searchDirs h dirs1) ++ [EvAccess (exeIn h d) true],
      inr (Some (exeIn h d)))).
Proof.
  split; [apply searchDirs_events|].
  intros Hnone Hd. split; [now apply searchDirs_failed|].
  now apply searchDirs_app_hit.
Qed.

Lemma enumeration_stops_at_first_hit_witness :
  searchDirs linuxHost (["/usr/local/sbin"; EmptyString] ++ "/usr/bin" :: ["/opt/bin"])
  = ([EvAccess "/usr/local/sbin/pandoc" false] ++ [EvAccess "/usr/bin/pandoc" true],
     inr (Some "/usr/bin/pandoc")).
Proof.
  apply (enumeration_stops_at_first_hit linuxHost
           ["/usr/local/sbin"; EmptyString] ["/opt/bin"] "/usr/bin");
    reflexivity.
Defined.

(** ** The export button *)

(** X12: the export button writes to [<basename>.<format>] in the export
    directory.  With no directory configured that is the vault path and
    nothing is created; when the directory cannot be created, the export
    is not given up: after the notice about the directory it runs with the
    output in the vault path. *)
Theorem export_click_target (h : Host) (settings : PandocExportSettings)
    (file : TFile) (format : string) :
  let configured := defaultExportDirectory settings in
  let dir := if isAbsolute h configured then configured
             else join h (getVaultPath h) configured in
  let target := fun d => join h d (basename file ++ "." ++ format)%string in
  let export := fun d => exportFile h settings file format (target d) in
  (configured = EmptyString ->
   exportClick h settings file format = export (getVaultPath h)) /\
  (configured <> EmptyString -> mkdirErr h dir = None ->
   exportClick h settings file format
   = (EvMkdir dir :: trace (export dir), outcome (export dir))) /\
  (configured <> EmptyString -> mkdirErr h dir <> None ->
   exportClick h settings file format
   = (EvMkdir dir :: EvNotice directoryNotice
        :: trace (export (getVaultPath h)),
      outcome (export (getVaultPath h)))).
Proof.
  intros configured dir target export. unfold exportClick, getExportDirectory.
  fold configured. split; [|split].
  - intros ->. cbn [Js.isEmpty]. unfold bind, ret.
    subst export target. cbn beta.
    now destruct (exportFile h settings file format _).
  - intros Hne Hmk. rewrite (isEmpty_false _ Hne). fold dir.
    unfold mkdir. rewrite Hmk. subst export target. cbn beta.
    unfold catch, bind, ret, emit. cbn.
    now destruct (exportFile h settings file format _).
  - intros Hne Hmk. rewrite (isEmpty_false _ Hne). fold dir.
    unfold mkdir. subst export target. cbn beta.
    destruct (mkdirErr h dir) as [msg|]; [|contradiction].
    unfold catch, bind, ret, emit, throw, Notice. cbn.
    now destruct (exportFile h settings file format _).
Qed.

Lemma export_click_target_witness :
  outcome (exportClick
             (withMkdirErr spaceMac (fun _ => Some "EACCES: permission denied"))
             {| pandocPath := "/opt/my tools/pandoc";
                defaultExportDirectory := "exports";
                defaultFormat := "pdf"; customArguments := EmptyString;
                pdfEngine := "auto" |} note "html")
  = inr Success.
Proof.
  destruct (export_click_target
              (withMkdirErr spaceMac (fun _ => Some "EACCES: permission denied"))
              {| pandocPath := "/opt/my tools/pandoc";
                 defaultExportDirectory := "exports";
                 defaultFormat := "pdf"; customArguments := EmptyString;
                 pdfEngine := "auto" |} note "html") as (_ & _ & H).
  rewrite H; [reflexivity|discriminate|discriminate].
Defined.

(** ** The test button *)

Lemma testLookup_run (h : Host) :
  testLookup h
  = ([EvExec (whichCommand h) (testWhichOptions h)], inr (testAnswer h)).
Proof.
  unfold testLookup, testAnswer, execPromise.
  destruct (execResult h (whichCommand h) (testWhichOptions h)) as [out err|msg];
    [|reflexivity].
  cbn. now destruct (Js.isEmpty (Js.trim out)).
Qed.

Lemma testSearch_off_mac (h : Host) (pandocPath : string) :
  platform h <> darwin ->
  testSearch h pandocPath
  = ([EvExec (whichCommand h) (testWhichOptions h)],
     inr (match testAnswer h with
          | Some p => (p, true)
          | None => (pandocPath, false)
          end)).
Proof.
  intros Hpl. unfold testSearch.
  assert (Hd : isDarwin (platform h) = false) by now destruct (platform h).
  rewrite Hd, testLookup_run. unfold bind, ret. cbn.
  now destruct (testAnswer h).
Qed.

Lemma testSearch_total (h : Host) (pandocPath : string) :
  exists r, outcome (testSearch h pandocPath) = inr r.
Proof.
  unfold testSearch. rewrite testLookup_run.
  assert (Hlast : forall t2 r2,
    exists r,
      outcome
        (bind ((t2, inr r2) : M (option string))
           (fun r2 =>
              match r2 with
              | Some p => ret (p, true)
              | None =>
                  bind ([EvExec (whichCommand h) (testWhichOptions h)],
                        @inr string _ (testAnswer h))
                    (fun r3 => match r3 with
                               | Some p => ret (p, true)
                               | None => ret (pandocPath, false)
                               end)
              end)) = inr r).
  { intros t2 [p|]; [eexists; reflexivity|].
    destruct (testAnswer h); eexists; reflexivity. }
  destruct (isDarwin (platform h)); [|apply (Hlast [] None)].
  pose proof (firstExecutable_outcome h commonBrewPaths) as Hb.
  rewrite (surjective_run (firstExecutable h commonBrewPaths)), Hb.
  destruct (find (accessX h) commonBrewPaths) as [p|].
  - unfold bind at 2. cbn [ret]. rewrite app_nil_r. apply Hlast.
  - unfold bind at 2. rewrite mdfindSearch_run, firstExecutable_outcome.
    cbn [outcome trace fst snd]. apply Hlast.
Qed.

Lemma testResolve_run (h : Host) (pandocPath : string) :
  testResolve h pandocPath =
  if isAbsolute h pandocPath then
    (trace (accessOrExe h pandocPath),
     inr (pandocPath,
          match outcome (accessOrExe h pandocPath) with
          | inr _ => true
          | inl _ => false
          end))
  else testSearch h pandocPath.
Proof.
  unfold testResolve. destruct (isAbsolute h pandocPath); cbn [negb].
  - destruct (accessOrExe h pandocPath) as [t [e|[]]];
      unfold attempt, bind, ret; cbn; now rewrite app_nil_r.
  - unfold bind, ret. cbn.
    now destruct (testSearch h pandocPath) as [t r].
Qed.

Lemma testDiagnostics_total (h : Host) : outcome (testDiagnostics h) = inr tt.
Proof.
  unfold testDiagnostics, execPromise.
  destruct (platform h); try reflexivity.
  - destruct (execResult h mdfindHeadCommand _);
      now destruct (execResult h zshPathCommand _).
  - now destruct (execResult h "echo $PATH" _).
  - now destruct (execResult h "echo $PATH" _).
Qed.

Lemma testPandoc_run (h : Host) (pandocPath finalPath : string)
    (foundPath : bool) :
  outcome (testResolve h pandocPath) = inr (finalPath, foundPath) ->
  testPandoc h pandocPath
  = (EvNotice (testingNotice pandocPath)
       :: trace (testResolve h pandocPath)
       ++ EvExec (testCommand h finalPath) (execOptions h)
       :: testEpilogue h finalPath,
     inr (versionPrinted h finalPath)).
Proof.
  intros Ho. unfold testPandoc, versionPrinted, testEpilogue, Notice.
  assert (Er : testResolve h pandocPath
               = (trace (testResolve h pandocPath), inr (finalPath, foundPath)))
    by (rewrite <- Ho; apply surjective_run).
  rewrite (bind_value _ _ _ _ (eq_refl : emit _ = ([_], inr tt))).
  rewrite (bind_value _ _ _ _ Er). cbn beta iota zeta.
  unfold execPromise.
  rewrite (bind_value _ _ _ _ (eq_refl : emit _ = ([_], inr tt))).
  destruct (execResult h (testCommand h finalPath) (execOptions h))
    as [out err|msg].
  - unfold catch, bind, emit, ret.
    cbn -[testingNotice testEmptyNotice testSuccessNotice testCommand
          execOptions Js.isEmpty].
    destruct (Js.isEmpty out);
      cbn -[testingNotice testEmptyNotice testSuccessNotice testCommand
            execOptions];
      rewrite <- ?app_assoc; reflexivity.
  - pose proof (testDiagnostics_total h) as Hd.
    rewrite (surjective_run (testDiagnostics h)), Hd.
    unfold catch, bind, emit, ret, throw.
    cbn -[testingNotice testFailureNotice testCommand execOptions
          testDiagnostics].
    rewrite <- ?app_assoc, ?app_nil_r. reflexivity.
Qed.

(** X13: for an absolute configured path the test button makes no search.
    When the path fails its check (and, on Windows, its [.exe] variant
    fails too) the path is kept as it is, marked as not found, nothing but
    the failed checks has been done, and the version command is run on
    that very path. *)
Theorem test_keeps_absolute_path (h : Host) (pandocPath : string) :
  isAbsolute h pandocPath = true ->
  hintPasses h pandocPath = false ->
  outcome (testResolve h pandocPath) = inr (pandocPath, false) /\
  forallb failedAccess (trace (testResolve h pandocPath)) = true /\
  In (EvExec (testCommand h pandocPath) (execOptions h))
     (trace (testPandoc h pandocPath)).
Proof.
  intros Habs Hfail.
  destruct (accessOrExe_outcome h pandocPath) as [_ Hno].
  destruct (Hno Hfail) as [e He].
  pose proof (testResolve_run h pandocPath) as E. rewrite Habs, He in E.
  assert (Ho : outcome (testResolve h pandocPath) = inr (pandocPath, false))
    by now rewrite E.
  split; [exact Ho|]. split.
  - rewrite E. cbn [trace fst]. exact (accessOrExe_failed h pandocPath e He).
  - rewrite (testPandoc_run h pandocPath pandocPath false Ho).
    cbn [trace fst]. right. apply in_or_app. right. now left.
Qed.

Lemma test_keeps_absolute_path_witness :
  outcome (testResolve linuxHost "/opt/tool/conv")
    = inr ("/opt/tool/conv", false) /\
  outcome (resolvePandoc linuxHost (withHint "/opt/tool/conv"))
    = inr ("/usr/bin/pandoc", PathSearch).
Proof.
  split; [|reflexivity].
  exact (proj1 (test_keeps_absolute_path linuxHost "/opt/tool/conv"
                  eq_refl eq_refl)).
Defined.

(** X14: off macOS, for a configured path that is not absolute (the default
    name included), the test button checks no file at all: it only runs
    the which/where lookup and takes its first line, or else keeps the
    configured string, marked as not found.  A pandoc that the export finds
    in a directory of PATH can thus be missed by the test. *)
Theorem test_lookup_only_off_mac (h : Host) (pandocPath : string) :
  platform h <> darwin ->
  isAbsolute h pandocPath = false ->
  testResolve h pandocPath
  = ([EvExec (whichCommand h) (testWhichOptions h)],
     inr (match testAnswer h with
          | Some p => (p, true)
          | None => (pandocPath, false)
          end)).
Proof.
  intros Hpl Hrel. rewrite testResolve_run, Hrel.
  now apply testSearch_off_mac.
Qed.

Lemma test_lookup_only_off_mac_witness :
  testResolve linuxHost "pandoc"
    = ([EvExec "which pandoc" (shellOnly "/bin/bash")], inr ("pandoc", false)) /\
  outcome (resolvePandoc linuxHost DEFAULT_SETTINGS)
    = inr ("/usr/bin/pandoc", PathSearch).
Proof.
  split; [|reflexivity].
  apply (test_lookup_only_off_mac linuxHost "pandoc");
    [discriminate|reflexivity].
Defined.

Lemma testResolve_total (h : Host) (pandocPath : string) :
  exists r, outcome (testResolve h pandocPath) = inr r.
Proof.
  rewrite testResolve_run. destruct (isAbsolute h pandocPath).
  - eexists. reflexivity.
  - apply testSearch_total.
Qed.

(** X15: the test button always runs one version command, on whatever
    path its search ended with, found or not, with the environment
    forwarded; it never rejects, and it reports success exactly when that
    command exits successfully and prints something on standard output. *)
Theorem test_verdict (h : Host) (pandocPath : string) :
  exists finalPath foundPath,
    outcome (testResolve h pandocPath) = inr (finalPath, foundPath) /\
    In (EvExec (testCommand h finalPath) (execOptions h))
       (trace (testPandoc h pandocPath)) /\
    outcome (testPandoc h pandocPath) = inr (versionPrinted h finalPath).
Proof.
  destruct (testResolve_total h pandocPath) as [[finalPath foundPath] Ho].
  exists finalPath, foundPath. split; [exact Ho|].
  rewrite (testPandoc_run h pandocPath finalPath foundPath Ho).
  split; [|reflexivity].
  cbn [trace fst]. right. apply in_or_app. right. now left.
Qed.

(** ** The folder button *)

Lemma accessF_run (h : Host) (p : string) :
  accessF h p
  = ([EvExists p], if existsSync h p then inr tt else inl "ENOENT").
Proof. unfold accessF, emit, bind. cbn. now destruct (existsSync h p). Qed.

Lemma firstCommonDir_outcome (h : Host) (currentPath : string)
    (dirs : list string) :
  outcome (firstCommonDir h currentPath dirs)
  = inr (match find (fun d => existsSync h (join h d currentPath)) dirs with
         | Some d => d
         | None => currentPath
         end).
Proof.
  induction dirs as [|d dirs IH]; [reflexivity|].
  cbn [firstCommonDir find]. rewrite accessF_run.
  destruct (existsSync h (join h d currentPath)); [reflexivity|].
  unfold attempt, bind. destruct (firstCommonDir h currentPath dirs) as [t r].
  exact IH.
Qed.

Lemma firstCommonDir_trace (h : Host) (currentPath : string)
    (dirs : list string) :
  forallb (fun e => match e with EvExists _ => true | _ => false end)
          (trace (firstCommonDir h currentPath dirs)) = true.
Proof.
  induction dirs as [|d dirs IH]; [reflexivity|].
  cbn [firstCommonDir]. rewrite accessF_run.
  destruct (existsSync h (join h d currentPath)); [reflexivity|].
  unfold attempt, bind. destruct (firstCommonDir h currentPath dirs) as [t r].
  exact IH.
Qed.

(** The directory the folder button settles on. *)
Lemma folderDir_outcome (h : Host) (fx : FolderHost) (currentPath : string) :
  outcome (folderDir h fx currentPath)
  = inr (if isAbsolute h currentPath then dirname fx currentPath
         else if negb (String.eqb currentPath "pandoc") then
           match find (fun d => existsSync h (join h d currentPath))
                      commonDirs with
           | Some d => d
           | None => currentPath
           end
         else
           match execResult h "which pandoc" (shellOnly "/bin/bash") with
           | ExecOk stdout _ =>
               if Js.isEmpty (Js.trim stdout) then currentPath
               else dirname fx (Js.trim stdout)
           | ExecFail _ => "/usr/local/bin"
           end).
Proof.
  unfold folderDir. destruct (isAbsolute h currentPath); [reflexivity|].
  destruct (negb (String.eqb currentPath "pandoc"));
    [apply firstCommonDir_outcome|].
  unfold execPromise.
  destruct (execResult h "which pandoc" (shellOnly "/bin/bash"))
    as [out err|msg]; [|reflexivity].
  cbn. now destruct (Js.isEmpty (Js.trim out)).
Qed.

Lemma viewFolder_run (h : Host) (fx : FolderHost) (currentPath dir : string) :
  outcome (folderDir h fx currentPath) = inr dir ->
  viewFolder h fx currentPath =
  if existsSync h dir then
    match readdirResult fx dir with
    | inr files =>
        (trace (folderDir h fx currentPath) ++ [EvExists dir; EvReaddir dir],
         inr (Some (dir, files, pandocListed h currentPath files)))
    | inl msg =>
        (trace (folderDir h fx currentPath)
           ++ [EvExists dir; EvReaddir dir; EvNotice (folderNotice msg)],
         inr None)
    end
  else
    (trace (folderDir h fx currentPath)
       ++ [EvExists dir; EvNotice (folderNotice (folderMissing dir))],
     inr None).
Proof.
  intros Ho. unfold viewFolder.
  assert (Ed : folderDir h fx currentPath
               = (trace (folderDir h fx currentPath), inr dir))
    by (rewrite <- Ho; apply surjective_run).
  rewrite (bind_value _ _ _ _ Ed). rewrite accessF_run. unfold readdir.
  destruct (existsSync h dir).
  - destruct (readdirResult fx dir) as [msg|files];
      unfold catch, bind, emit, ret, throw, Notice;
      cbn -[folderNotice pandocListed];
      rewrite ?app_nil_r, <- ?app_assoc; reflexivity.
  - unfold catch, bind, emit, ret, throw, Notice.
    cbn -[folderNotice folderMissing]. rewrite <- ?app_assoc. reflexivity.
Qed.

(** X16: the folder button lists a directory only after that directory
    passed the existence test, and reports pandoc as found from the names
    of the entries alone: an entry called [pandoc], or called like the last
    segment of the configured path, counts even when it is a directory.
    When the directory does not exist, nothing is listed and the notice
    names the directory. *)
Theorem folder_listed_after_check (h : Host) (fx : FolderHost)
    (currentPath : string) :
  exists dir,
    outcome (folderDir h fx currentPath) = inr dir /\
    (forall shown files found,
        outcome (viewFolder h fx currentPath) = inr (Some (shown, files, found)) ->
        shown = dir /\ existsSync h dir = true /\
        readdirResult fx dir = inr files /\
        (found = true <->
         exists file, In file files /\
                      (name file = "pandoc" \/
                       name file = pathBasename h currentPath))) /\
    (existsSync h dir = false ->
     viewFolder h fx currentPath
     = (trace (folderDir h fx currentPath)
          ++ [EvExists dir; EvNotice (folderNotice (folderMissing dir))],
        inr None)).
Proof.
  pose proof (folderDir_outcome h fx currentPath) as Ho.
  eexists. split; [exact Ho|].
  pose proof (viewFolder_run h fx currentPath _ Ho) as E.
  set (dir := if isAbsolute h currentPath then _ else _) in *.
  split.
  - intros shown files found. rewrite E.
    destruct (existsSync h dir); [|discriminate].
    destruct (readdirResult fx dir) as [msg|fs]; [discriminate|].
    cbn [outcome snd]. intros [= <- <- <-].
    repeat split; try reflexivity.
    + unfold pandocListed. rewrite existsb_exists.
      intros (file & Hin & Hn). exists file. split; [exact Hin|].
      apply orb_prop in Hn as [Hn|Hn]; apply String.eqb_eq in Hn; auto.
    + intros (file & Hin & Hn). unfold pandocListed. rewrite existsb_exists.
      exists file. split; [exact Hin|].
      destruct Hn as [-> | ->]; rewrite String.eqb_refl;
        [reflexivity|apply orb_true_r].
  - intros Hmiss. now rewrite E, Hmiss.
Qed.

Lemma find_none_in {A} (f : A -> bool) (l : list A) :
  (forall x, In x l -> f x = false) -> find f l = None.
Proof.
  induction l as [|x l IH]; [reflexivity|].
  intros Hf. cbn. rewrite (Hf x) by now left.
  apply IH. intros y Hy. apply Hf. now right.
Qed.

(** X17: where the folder button looks.  For a relative configured path
    other than the default name it tries four Unix directories and, when
    the path exists in none of them, takes the configured string itself as
    the directory.  For the default name it runs [which pandoc] through
    bash on every platform, Windows included: when that fails the
    directory is [/usr/local/bin], and when it prints nothing the
    directory is the string [pandoc]. *)
Theorem folder_fallbacks (h : Host) (fx : FolderHost) (currentPath : string) :
  isAbsolute h currentPath = false ->
  (currentPath <> "pandoc" ->
   (forall d, In d commonDirs -> existsSync h (join h d currentPath) = false) ->
   outcome (folderDir h fx currentPath) = inr currentPath /\
   forallb (fun e => match e with EvExists _ => true | _ => false end)
           (trace (folderDir h fx currentPath)) = true) /\
  (currentPath = "pandoc" ->
   trace (folderDir h fx currentPath)
     = [EvExec "which pandoc" (shellOnly "/bin/bash")] /\
   (forall msg,
       execResult h "which pandoc" (shellOnly "/bin/bash") = ExecFail msg ->
       outcome (folderDir h fx currentPath) = inr "/usr/local/bin") /\
   (forall stdout stderr,
       execResult h "which pandoc" (shellOnly "/bin/bash")
         = ExecOk stdout stderr ->
       Js.trim stdout = EmptyString ->
       outcome (folderDir h fx currentPath) = inr "pandoc")).
Proof.
  intros Hrel. split.
  - intros Hne Hnone. split.
    + rewrite folderDir_outcome, Hrel.
      apply String.eqb_neq in Hne. rewrite Hne. cbn [negb].
      assert (F : find (fun d => existsSync h (join h d currentPath)) commonDirs
                  = None).
      { apply find_none_in. exact Hnone. }
      now rewrite F.
    + unfold folderDir. rewrite Hrel.
      apply String.eqb_neq in Hne. rewrite Hne. cbn [negb].
      apply firstCommonDir_trace.
  - intros ->. split; [|split].
    + unfold folderDir. rewrite Hrel. cbn [String.eqb negb].
      change (String.eqb "pandoc" "pandoc") with true. cbn [negb].
      unfold execPromise.
      destruct (execResult h "which pandoc" (shellOnly "/bin/bash"))
        as [out err|msg]; [|reflexivity].
      cbn. now destruct (Js.isEmpty (Js.trim out)).
    + intros msg He. rewrite folderDir_outcome, Hrel, He. reflexivity.
    + intros out err He Hblank.
      rewrite folderDir_outcome, Hrel, He, Hblank. reflexivity.
Qed.

Lemma folder_fallbacks_witness :
  outcome (folderDir linuxHost sampleFolders "tools/pandoc")
    = inr "tools/pandoc" /\
  outcome (folderDir winHost sampleFolders "pandoc") = inr "/usr/local/bin".
Proof.
  split.
  - apply (folder_fallbacks linuxHost sampleFolders "tools/pandoc" eq_refl);
      [discriminate|]. intros d Hd. reflexivity.
  - destruct (folder_fallbacks winHost sampleFolders "pandoc" eq_refl)
      as [_ H].
    destruct (H eq_refl) as (_ & Hfail & _).
    apply (Hfail "Command failed: which pandoc"). reflexivity.
Defined.

Lemma folder_listed_after_check_witness :
  outcome (viewFolder folderHost sampleFolders "pandoc")
    = inr (Some ("/usr/bin",
                 [ {| name := "pandoc"; isDirectory := true |};
                   {| name := "run.sh"; isDirectory := false |} ],
                 true)) /\
  existsSync folderHost "/usr/bin" = true.
Proof.
  split; [reflexivity|].
  destruct (folder_listed_after_check folderHost sampleFolders "pandoc")
    as (dir & Hd & Hlist & _).
  injection Hd as <-.
  exact (proj1 (proj2 (Hlist _ _ _ eq_refl))).
Defined.

(** ** The directories of PATH *)

Lemma concat_cons_char (sep : string) (c : ascii) (x : string)
    (t : list string) :
  String.concat sep (String c x :: t) = String c (String.concat sep (x :: t)).
Proof. now destruct t. Qed.

Lemma split_nonempty (sep : ascii) (s : string) : Js.split sep s <> [].
Proof.
  destruct s as [|c s]; [discriminate|]. cbn.
  destruct (Ascii.eqb c sep); [discriminate|].
  now destruct (Js.split sep s).
Qed.

Lemma split_concat (sep : ascii) (s : string) :
  String.concat (String sep EmptyString) (Js.split sep s) = s.
Proof.
  induction s as [|c s IH]; [reflexivity|].
  cbn [Js.split]. destruct (Ascii.eqb c sep) eqn:Hc.
  - apply Ascii.eqb_eq in Hc. subst c.
    pose proof (split_nonempty sep s) as Hne.
    destruct (Js.split sep s) as [|x t]; [contradiction|].
    change (String.concat (String sep EmptyString) (EmptyString :: x :: t))
      with (String sep (String.concat (String sep EmptyString) (x :: t))).
    now rewrite IH.
  - pose proof (split_nonempty sep s) as Hne.
    destruct (Js.split sep s) as [|x t]; [contradiction|].
    now rewrite concat_cons_char, IH.
Qed.

(** X18: the directories of PATH are its pieces between separators ([;]
    on Windows, [:] elsewhere): joining them with the separator gives PATH
    back, none holds the separator, and there is always at least one, so an
    unset or empty PATH gives one empty entry (which the loop skips). *)
Theorem path_dirs_round_trip (h : Host) :
  String.concat (String (pathSeparator h) EmptyString) (pathDirs h) = envPATH h /\
  Forall (fun d => anyChar (fun c => Ascii.eqb c (pathSeparator h)) d = false)
         (pathDirs h) /\
  pathDirs h <> [] /\
  (envPATH h = EmptyString -> pathDirs h = [EmptyString]).
Proof.
  unfold pathDirs. split; [apply split_concat|].
  split; [apply split_pieces|]. split; [apply split_nonempty|].
  now intros ->.
Qed.

(** ** The text of the failure report *)

Lemma prefix_iff (p s : string) :
  String.prefix p s = true <-> exists post, s = (p ++ post)%string.
Proof.
  revert s. induction p as [|c p IH]; intros s.
  - cbn. split; [exists s; reflexivity | now destruct s].
  - destruct s as [|x s]; cbn.
    + split; [discriminate | intros [post H]; discriminate H].
    + destruct (ascii_dec c x) as [->|Hne].
      * rewrite IH. split; intros [post H]; exists post; congruence.
      * split; [discriminate|]. intros [post H]. congruence.
Qed.

Lemma includes_iff (needle s : string) :
  Js.includes needle s = true <->
  exists pre post, s = (pre ++ needle ++ post)%string.
Proof.
  split.
  - induction s as [|c s IH]; cbn [Js.includes].
    + destruct (String.prefix needle EmptyString) eqn:Hp; [|discriminate].
      apply prefix_iff in Hp as [post Hp]. intros _.
      now exists EmptyString, post.
    + destruct (String.prefix needle (String c s)) eqn:Hp.
      * apply prefix_iff in Hp as [post Hp]. intros _.
        now exists EmptyString, post.
      * intros Hi. destruct (IH Hi) as (pre & post & ->).
        now exists (String c pre), post.
  - intros (pre & post & ->). induction pre as [|c pre IH].
    + apply includes_prefix, prefix_iff. now exists post.
    + cbn [append Js.includes]. rewrite IH.
      now destruct (String.prefix needle _).
Qed.

Lemma includes_trans (a b c : string) :
  Js.includes a b = true -> Js.includes b c = true -> Js.includes a c = true.
Proof.
  rewrite !includes_iff.
  intros (pre1 & post1 & ->) (pre2 & post2 & ->).
  exists (pre2 ++ pre1)%string, (post1 ++ post2)%string.
  now rewrite !append_assoc.
Qed.

(** X19: what the failure notice keeps of the error.  A tool-not-found
    report is one fixed text, in which the original message is lost; an
    engine-missing report quotes the original message; any other report is
    the original message itself; an empty message is reported as an unknown
    error. *)
Theorem failure_text (message : string) :
  let errorMsg := if Js.isEmpty message then "未知错误" else message in
  match fst (classify message) with
  | Success => False
  | ToolNotFound => snd (classify message) = toolNotFoundText
  | EngineMissing => Js.includes errorMsg (snd (classify message)) = true
  | OtherFailure => snd (classify message) = errorMsg
  end.
Proof.
  unfold classify.
  set (errorMsg := if Js.isEmpty message then "未知错误" else message).
  cbn zeta. destruct (toolAbsent errorMsg); [reflexivity|].
  destruct (engineAbsent errorMsg); [|reflexivity].
  cbn [fst snd]. unfold engineMissingText.
  apply includes_iff. eexists _, _. reflexivity.
Qed.

(** X20: with the format pdf and xelatex, wkhtmltopdf or weasyprint as
    the engine, the command line itself names the engine.  A failure whose
    message quotes the command line, as the message of a failed [exec]
    does, is therefore reported as a missing engine whatever went wrong,
    unless it looks like a missing tool. *)
Theorem engine_in_command_line (h : Host) (settings : PandocExportSettings)
    (pandocPath tmp outputPath message : string) :
  pdfEngine settings = "xelatex" \/ pdfEngine settings = "wkhtmltopdf"
  \/ pdfEngine settings = "weasyprint" ->
  Js.includes (command h pandocPath tmp outputPath (extraArgs settings "pdf"))
              message = true ->
  toolAbsent message = false ->
  fst (classify message) = EngineMissing.
Proof.
  intros Heng Hquote Htool.
  assert (Hargs : Js.includes (pdfEngine settings) (extraArgs settings "pdf")
                  = true).
  { apply includes_iff. unfold extraArgs.
    assert (Hna : String.eqb (pdfEngine settings) "auto" = false)
      by (destruct Heng as [-> | [-> | ->]]; reflexivity).
    rewrite Hna. cbn [String.eqb andb negb].
    change (String.eqb "pdf" "pdf") with true. cbn [andb].
    eexists _, _. reflexivity. }
  assert (Hcmd : Js.includes (extraArgs settings "pdf")
                   (command h pandocPath tmp outputPath
                            (extraArgs settings "pdf")) = true).
  { apply includes_iff. unfold command.
    destruct (isWin32 (platform h)).
    - eexists _, EmptyString.
      rewrite <- !append_assoc.
      assert (Hnil : forall x : string, (x ++ EmptyString)%string = x).
      { intros x. induction x as [|c x IH]; [reflexivity|].
        cbn. now rewrite IH. }
      now rewrite Hnil.
    - eexists _, Js.dq. rewrite <- !append_assoc. reflexivity. }
  pose proof (includes_trans _ _ _ (includes_trans _ _ _ Hargs Hcmd) Hquote)
    as Hmsg.
  rewrite classify_kind, Htool.
  unfold engineAbsent.
  destruct Heng as [He | [He | He]]; rewrite He in Hmsg; rewrite Hmsg;
    now rewrite ?orb_true_r.
Qed.

Lemma engine_in_command_line_witness :
  fst (classify
         ("Command failed: "
          ++ command linuxHost "/usr/bin/pandoc" "/tmp/note-temp.md"
               "/vault/note.pdf"
               (extraArgs {| pandocPath := "pandoc";
                             defaultExportDirectory := EmptyString;
                             defaultFormat := "pdf";
                             customArguments := EmptyString;
                             pdfEngine := "weasyprint" |} "pdf")
          ++ Js.nl ++ "pandoc: note.md: openFile: does not exist"))
  = EngineMissing.
Proof.
  apply (engine_in_command_line linuxHost
           {| pandocPath := "pandoc"; defaultExportDirectory := EmptyString;
              defaultFormat := "pdf"; customArguments := EmptyString;
              pdfEngine := "weasyprint" |}
           "/usr/bin/pandoc" "/tmp/note-temp.md" "/vault/note.pdf").
  - right. right. reflexivity.
  - vm_compute. reflexivity.
  - vm_compute. reflexivity.
Defined.

Lemma path_dirs_round_trip_witness :
  envPATH (sampleHost linux EmptyString (fun _ => false) noCommand)
    = EmptyString /\
  pathDirs (sampleHost linux EmptyString (fun _ => false) noCommand)
    = [EmptyString].
Proof.
  split; [reflexivity|].
  apply (path_dirs_round_trip
           (sampleHost linux EmptyString (fun _ => false) noCommand)).
  reflexivity.
Defined.

Lemma candidates_complete_and_distinct_witness :
  In "C:\Pandoc" commonPaths /\
  In "C:\Pandoc" (allPaths linuxHost (commonPaths ++ [])).
Proof.
  assert (H : In "C:\Pandoc" commonPaths) by (cbn; auto).
  split; [exact H|].
  apply (candidates_complete_and_distinct linuxHost commonPaths), H.
Defined.
